(** * The recurrent-network exercise notebook

    A model of [exercises/2_recurrent_neural_networks.ipynb], the one file
    of the repository with code: the word-index dictionaries the notebook
    builds, the decoding of a review, the padding of the reviews to a fixed
    length, the cells as they run in the kernel, and the notebook as a
    document.  Code cells are counted from 1 in the order of the file.

    Python integers are unbounded, so a token id is a [Z].  A Python [dict]
    remembers the order in which its keys were inserted and a comprehension
    over [d.items()] walks it in that order, so a dict is an association
    list with distinct keys, kept in insertion order.

    The functions of [keras] that the notebook calls are not part of the
    repository.  The two that give data, [imdb.load_data] and
    [imdb.get_word_index], are parameters of the model; the one that
    computes on the notebook's data, [sequence.pad_sequences], is modelled
    from its description. *)

From stdpp Require Import base option list strings numbers pretty.

(** ** Exceptions *)

Inductive exn :=
| KeyError
| IndexError
| ValueError
| TypeError
| NameError
| LibraryError (msg : string).

Inductive result (A : Type) :=
| Ok (a : A)
| Raise (e : exn).

Arguments Ok {A} a.
Arguments Raise {A} e.

#[global] Instance result_ret : MRet result := λ A a, Ok a.

#[global] Instance result_bind : MBind result := λ A B f m,
  match m with
  | Ok a => f a
  | Raise e => Raise e
  end.

(** [[f(x) for x in xs]]: the first element on which [f] raises ends the
    comprehension. *)
Fixpoint list_comp {A B} (f : A → result B) (xs : list A) : result (list B) :=
  match xs with
  | [] => Ok []
  | x :: xs' => y ← f x; ys ← list_comp f xs'; Ok (y :: ys)
  end.

(** ** Python dictionaries *)

Module PyDict.
Section dict.
Context {K V : Type} `{EqDecision K}.

(** [d.get(k)] *)
Fixpoint get (d : list (K * V)) (k : K) : option V :=
  match d with
  | [] => None
  | (k', v) :: d' => if decide (k' = k) then Some v else get d' k
  end.

(** [d[k]]: a missing key raises [KeyError]. *)
Definition getitem (d : list (K * V)) (k : K) : result V :=
  match get d k with
  | Some v => Ok v
  | None => Raise KeyError
  end.

(** [d[k] = v]: a key already present keeps its place and gets the new
    value, a new key goes to the end. *)
Fixpoint setitem (k : K) (v : V) (d : list (K * V)) : list (K * V) :=
  match d with
  | [] => [(k, v)]
  | (k', v') :: d' =>
      if decide (k' = k) then (k', v) :: d' else (k', v') :: setitem k v d'
  end.

(** Inserting a sequence of pairs one after the other into [acc]. *)
Definition update (acc : list (K * V)) (kvs : list (K * V)) : list (K * V) :=
  fold_left (λ d kv, setitem kv.1 kv.2 d) kvs acc.

(** [{k: v for k, v in kvs}] *)
Definition of_items (kvs : list (K * V)) : list (K * V) := update [] kvs.

(** The invariant of a dict: no key occurs twice. *)
Definition wf (d : list (K * V)) : Prop := NoDup d.*1.

End dict.
End PyDict.

(** ** The word index (cell 5)

    [imdb.get_word_index()] gives the library's dict from a word to its
    frequency rank; it is the argument [word_index] below. *)

Definition INDEX_FROM : Z := 3.

(** The three markers the notebook adds. *)
Definition special_words : list string := ["<PAD>"; "<START>"; "<UNK>"].

(** [{k: (v + INDEX_FROM) for k, v in word_index.items()}] *)
Definition shifted_index (word_index : list (string * Z)) : list (string * Z) :=
  PyDict.of_items ((λ kv, (kv.1, (kv.2 + INDEX_FROM)%Z)) <$> word_index).

(** [word_to_index] after the three item assignments. *)
Definition word_to_index (word_index : list (string * Z)) : list (string * Z) :=
  PyDict.setitem "<UNK>" 2%Z
    (PyDict.setitem "<START>" 1%Z
       (PyDict.setitem "<PAD>" 0%Z (shifted_index word_index))).

(** [{v: k for k, v in d.items()}] *)
Definition inverted (d : list (string * Z)) : list (Z * string) :=
  PyDict.of_items ((λ kv, (kv.2, kv.1)) <$> d).

Definition index_to_word (word_index : list (string * Z)) : list (Z * string) :=
  inverted (word_to_index word_index).

(** ** Showing a review (cell 6) *)

(** [xs[i]] on a sequence: a negative index counts from the end, an index
    outside [-len, len) raises [IndexError]. *)
Definition getitem_seq {A} (xs : list A) (i : Z) : result A :=
  let n := Z.of_nat (length xs) in
  let j := if (i <? 0)%Z then (i + n)%Z else i in
  if ((0 <=? j)%Z && (j <? n)%Z)
  then match xs !! Z.to_nat j with Some x => Ok x | None => Raise IndexError end
  else Raise IndexError.

(** [' '.join([index_to_word[w] for w in x[I_SHOW]])] *)
Definition show_review (i2w : list (Z * string)) (x : list (list Z)) (I_SHOW : Z)
  : result string :=
  row ← getitem_seq x I_SHOW;
  ws ← list_comp (PyDict.getitem i2w) row;
  Ok (String.concat " " ws).

(** What the claim on decoding says of a token id of the loaded data: it is
    0, 1 or 2, or the rank of a word of the library's index plus 3. *)
Definition loaded_token (word_index : list (string * Z)) (w : Z) : Prop :=
  w ∈ [0; 1; 2]%Z ∨ ∃ k v, PyDict.get word_index k = Some v ∧ w = (v + 3)%Z.

(** ** Padding (cell 7) *)

(** A slice bound [b] of a sequence of length [n], as Python clamps it: a
    negative bound counts from the end, and the result stays within
    [0, n]. *)
Definition slice_bound (n : nat) (b : Z) : nat :=
  if (b <? 0)%Z then Z.to_nat (Z.max (b + Z.of_nat n) 0)
  else Z.to_nat (Z.min b (Z.of_nat n)).

(** [s[start:]] and [s[:stop]] *)
Definition slice_from {A} (s : list A) (start : Z) : list A :=
  drop (slice_bound (length s) start) s.

Definition slice_upto {A} (s : list A) (stop : Z) : list A :=
  take (slice_bound (length s) stop) s.

(** Assigning a one-dimensional [src] to [m] cells of an array: the lengths
    agree, or [src] has one element that is repeated; anything else raises
    [ValueError]. *)
Definition broadcast_to (m : nat) (src : list Z) : result (list Z) :=
  if decide (length src = m) then Ok src
  else match src with
       | [v] => Ok (replicate m v)
       | _ => Raise ValueError
       end.

(** [row[start:] = src] and [row[:stop] = src] on a row of an array *)
Definition assign_from (row : list Z) (start : Z) (src : list Z) : result (list Z) :=
  let st := slice_bound (length row) start in
  vs ← broadcast_to (length row - st) src;
  Ok (take st row ++ vs).

Definition assign_upto (row : list Z) (stop : Z) (src : list Z) : result (list Z) :=
  let sp := slice_bound (length row) stop in
  vs ← broadcast_to sp src;
  Ok (vs ++ drop sp row).

Inductive side := pre | post.

(** Modelled from the spec: [keras.preprocessing.sequence.pad_sequences], a
    function of the external library that is not among the sources.  The
    spec calls it "forcing variable-length token sequences to a fixed length"
    and its result "fixed-length padded/truncated integer arrays"; the body
    follows the library's documented behaviour for one sequence [s], whose
    row of the result starts as [maxlen] copies of [value]:
    - an empty [s] leaves the row as it is;
    - [truncating='pre'] takes [s[-maxlen:]], ['post'] takes [s[:maxlen]];
    - [padding='pre'] writes it to [row[-len(trunc):]], ['post'] to
      [row[:len(trunc)]].
    The conversion to the array's element type is left out. *)
Definition pad_row (maxlen : nat) (padding truncating : side) (value : Z)
    (row s : list Z) : result (list Z) :=
  if decide (length s = 0) then Ok row
  else
    let trunc :=
      match truncating with
      | pre => slice_from s (- Z.of_nat maxlen)
      | post => slice_upto s (Z.of_nat maxlen)
      end in
    match padding with
    | post => assign_upto row (Z.of_nat (length trunc)) trunc
    | pre => assign_from row (- Z.of_nat (length trunc)) trunc
    end.

(** Modelled from the spec: the loop [for idx, s in enumerate(sequences)]
    of the same library function over the array [x], starting at row
    [idx]. *)
Fixpoint pad_loop (maxlen : nat) (padding truncating : side) (value : Z)
    (idx : nat) (sequences : list (list Z)) (x : list (list Z))
  : result (list (list Z)) :=
  match sequences with
  | [] => Ok x
  | s :: rest =>
      match x !! idx with
      | None => Raise IndexError
      | Some row =>
          row' ← pad_row maxlen padding truncating value row s;
          pad_loop maxlen padding truncating value (S idx) rest (<[idx := row']> x)
      end
  end.

(** Modelled from the spec: the whole call, on an array [x] of
    [len(sequences)] rows of [maxlen] copies of [value]. *)
Definition pad_sequences_with (maxlen : nat) (padding truncating : side)
    (value : Z) (sequences : list (list Z)) : result (list (list Z)) :=
  pad_loop maxlen padding truncating value 0 sequences
    (replicate (length sequences) (replicate maxlen value)).

(** Modelled from the spec: the call of the notebook,
    [sequence.pad_sequences(sequences, maxlen=maxlen)].  The library's
    defaults are [padding='pre'], [truncating='pre'] and [value=0]. *)
Definition pad_sequences (sequences : list (list Z)) (maxlen : nat)
  : result (list (list Z)) :=
  pad_sequences_with maxlen pre pre 0%Z sequences.

Definition MAXLEN : nat := 80.

(** ** The kernel

    The cells run one after the other in one Python process.  A name of the
    global namespace is bound to an object of the heap, two names may be
    bound to the same object, and an item assignment changes the object in
    place.  An exception ends the cell and leaves the kernel as it was when
    it was raised. *)

(** The objects the cells work on: an integer, a dict from words to ids,
    a dict from ids to words, an array of token lists ([x_train]), an array
    of labels ([y_train]) and a two-dimensional integer array with its
    number of columns ([X_train]). *)
Inductive obj :=
| OInt (n : Z)
| ODictSI (d : list (string * Z))
| ODictIS (d : list (Z * string))
| OSeqs (x : list (list Z))
| OLabels (y : list Z)
| OArray (ncols : nat) (rows : list (list Z)).

Record kernel := Kernel {
  globals : list (string * nat);
  heap : list obj;
  stdout : list string
}.

Definition M (A : Type) : Type := kernel → result A * kernel.

#[global] Instance M_ret : MRet M := λ A a σ, (Ok a, σ).

#[global] Instance M_bind : MBind M := λ A B f m σ,
  match m σ with
  | (Ok a, σ') => f a σ'
  | (Raise e, σ') => (Raise e, σ')
  end.

Definition raise {A} (e : exn) : M A := λ σ, (Raise e, σ).

(** The outcome of a call that does not touch the kernel. *)
Definition lift {A} (r : result A) : M A := λ σ, (r, σ).

(** A new object gets an address no object has yet. *)
Definition alloc (o : obj) : M nat := λ σ,
  (Ok (length (heap σ)), Kernel (globals σ) (heap σ ++ [o]) (stdout σ)).

(** The object at an address.  The cells only use addresses of objects
    that exist; an object of the wrong kind, or none, is a [TypeError]. *)
Definition deref (l : nat) : M obj := λ σ,
  match heap σ !! l with
  | Some o => (Ok o, σ)
  | None => (Raise TypeError, σ)
  end.

Definition update_obj (l : nat) (o : obj) : M unit := λ σ,
  (Ok (), Kernel (globals σ) (<[l := o]> (heap σ)) (stdout σ)).

(** [name = <object at l>] *)
Definition assign (name : string) (l : nat) : M unit := λ σ,
  (Ok (), Kernel (PyDict.setitem name l (globals σ)) (heap σ) (stdout σ)).

(** Reading a name that is not bound raises [NameError]. *)
Definition name_lookup (name : string) : M nat := λ σ,
  match PyDict.get (globals σ) name with
  | Some l => (Ok l, σ)
  | None => (Raise NameError, σ)
  end.

Definition print (line : string) : M unit := λ σ,
  (Ok (), Kernel (globals σ) (heap σ) (stdout σ ++ [line])).

Definition read (name : string) : M obj := l ← name_lookup name; deref l.

Definition read_int (name : string) : M Z :=
  o ← read name;
  match o with OInt n => mret n | _ => raise TypeError end.

Definition read_dict_si (name : string) : M (list (string * Z)) :=
  o ← read name;
  match o with ODictSI d => mret d | _ => raise TypeError end.

Definition read_dict_is (name : string) : M (list (Z * string)) :=
  o ← read name;
  match o with ODictIS d => mret d | _ => raise TypeError end.

Definition read_seqs (name : string) : M (list (list Z)) :=
  o ← read name;
  match o with OSeqs x => mret x | _ => raise TypeError end.

(** [name = <literal n>] *)
Definition assign_int (name : string) (n : Z) : M unit :=
  l ← alloc (OInt n); assign name l.

(** [name[k] = v]: the dict that [name] is bound to changes in place. *)
Definition dict_setitem (name : string) (k : string) (v : Z) : M unit :=
  l ← name_lookup name;
  o ← deref l;
  match o with
  | ODictSI d => update_obj l (ODictSI (PyDict.setitem k v d))
  | _ => raise TypeError
  end.

(** [x[idx, ...]] of the array at [l], and its assignment in place. *)
Definition read_row (l idx : nat) : M (list Z) :=
  o ← deref l;
  match o with
  | OArray _ rows =>
      match rows !! idx with Some row => mret row | None => raise IndexError end
  | _ => raise TypeError
  end.

Definition write_row (l idx : nat) (row : list Z) : M unit :=
  o ← deref l;
  match o with
  | OArray n rows => update_obj l (OArray n (<[idx := row]> rows))
  | _ => raise TypeError
  end.

(** [x.shape] of a two-dimensional array, as [print] shows it. *)
Definition shape_repr (o : obj) : result string :=
  match o with
  | OArray n rows => Ok ("(" +:+ pretty (length rows) +:+ ", " +:+ pretty n +:+ ")")
  | _ => Raise TypeError
  end.

(** Modelled from the spec: [pad_sequences] as it runs in the kernel, on the
    object at [src].  It makes a new array [x] and writes the rows of [x],
    one per sequence, with the defaults of the call. *)
Fixpoint pad_loop_at (x maxlen idx : nat) (sequences : list (list Z)) : M unit :=
  match sequences with
  | [] => mret ()
  | s :: rest =>
      row ← read_row x idx;
      row' ← lift (pad_row maxlen pre pre 0%Z row s);
      write_row x idx row';;
      pad_loop_at x maxlen (S idx) rest
  end.

(** Modelled from the spec: the same call in the kernel.  The array of
    the result is a new object; a negative [maxlen] is no shape of an
    array. *)
Definition keras_pad_sequences (src : nat) (maxlen : Z) : M nat :=
  o ← deref src;
  match o with
  | OSeqs sequences =>
      if (maxlen <? 0)%Z then raise ValueError
      else
        let n := Z.to_nat maxlen in
        x ← alloc (OArray n (replicate (length sequences) (replicate n 0%Z)));
        pad_loop_at x n 0 sequences;;
        mret x
  | _ => raise TypeError
  end.

(** What the notebook takes from [keras.datasets.imdb]: each call gives its
    value or raises. *)
Record library := Library {
  load_data :
    Z → result ((list (list Z) * list Z) * (list (list Z) * list Z));
  get_word_index : result (list (string * Z))
}.

(** ** The cells *)

Definition NUM_WORDS : Z := 20000.

Section cells.
Variable imdb : library.

(** Cell 3: loading the reviews. *)
Definition cell_load_data : M unit :=
  assign_int "NUM_WORDS" NUM_WORDS;;
  num_words ← read_int "NUM_WORDS";
  '((xtr, ytr), (xte, yte)) ← lift (load_data imdb num_words);
  l ← alloc (OSeqs xtr); assign "x_train" l;;
  l ← alloc (OLabels ytr); assign "y_train" l;;
  l ← alloc (OSeqs xte); assign "x_test" l;;
  l ← alloc (OLabels yte); assign "y_test" l;;
  print "Loading data...";;
  x ← read_seqs "x_train";
  print (pretty (length x) +:+ " train sequences");;
  x ← read_seqs "x_test";
  print (pretty (length x) +:+ " test sequences").

(** Cell 5: the word index and its inverse.  The library's dict is new at
    each call; its pairs go in one after the other. *)
Definition cell_word_index : M unit :=
  assign_int "INDEX_FROM" INDEX_FROM;;
  raw ← lift (get_word_index imdb);
  l ← alloc (ODictSI (PyDict.of_items raw)); assign "word_index" l;;
  items ← read_dict_si "word_index";
  off ← read_int "INDEX_FROM";
  l ← alloc (ODictSI (PyDict.of_items ((λ kv, (kv.1, (kv.2 + off)%Z)) <$> items)));
  assign "word_to_index" l;;
  dict_setitem "word_to_index" "<PAD>" 0;;
  dict_setitem "word_to_index" "<START>" 1;;
  dict_setitem "word_to_index" "<UNK>" 2;;
  items ← read_dict_si "word_to_index";
  l ← alloc (ODictIS (inverted items));
  assign "index_to_word" l.

(** Cell 6: the value of the cell is the decoded review. *)
Definition cell_show_review : M string :=
  assign_int "I_SHOW" 4;;
  x ← read_seqs "x_train";
  i ← read_int "I_SHOW";
  row ← lift (getitem_seq x i);
  ws ← match row with
       | [] => mret []
       | _ => i2w ← read_dict_is "index_to_word";
              lift (list_comp (PyDict.getitem i2w) row)
       end;
  mret (String.concat " " ws).

(** Cell 7: padding both sets. *)
Definition cell_pad : M unit :=
  assign_int "MAXLEN" (Z.of_nat MAXLEN);;
  src ← name_lookup "x_train";
  maxlen ← read_int "MAXLEN";
  l ← keras_pad_sequences src maxlen; assign "X_train" l;;
  src ← name_lookup "x_test";
  maxlen ← read_int "MAXLEN";
  l ← keras_pad_sequences src maxlen; assign "X_test" l;;
  o ← read "X_train"; sh ← lift (shape_repr o);
  print ("Size of X_train " +:+ sh);;
  o ← read "X_test"; sh ← lift (shape_repr o);
  print ("Size of X_test " +:+ sh).

End cells.

(** ** What the claims on the word index speak of *)

(** Distinct words have distinct ids. *)
Definition distinct_ids (d : list (string * Z)) : Prop :=
  ∀ k1 k2 v, PyDict.get d k1 = Some v → PyDict.get d k2 = Some v → k1 = k2.

(** Each of the two dicts takes back what the other gives. *)
Definition round_trip (word_index : list (string * Z)) : Prop :=
  (∀ w i, PyDict.get (word_to_index word_index) w = Some i →
          PyDict.get (index_to_word word_index) i = Some w)
  ∧ (∀ i w, PyDict.get (index_to_word word_index) i = Some w →
            PyDict.get (word_to_index word_index) w = Some i).

(** [I_SHOW] is an index of a row of [x]. *)
Definition valid_index {A} (x : list A) (i : Z) : Prop :=
  (- Z.of_nat (length x) ≤ i < Z.of_nat (length x))%Z.

(** Every token id of [x] is one the loader can give. *)
Definition loaded_tokens (word_index : list (string * Z)) (x : list (list Z)) : Prop :=
  ∀ row w, row ∈ x → w ∈ row → loaded_token word_index w.

(** The row of the result for one sequence: [pad_row] on a row of [maxlen]
    copies of [value]. *)
Definition padded_row (maxlen : nat) (padding truncating : side) (value : Z)
    (s : list Z) : result (list Z) :=
  pad_row maxlen padding truncating value (replicate maxlen value) s.

(** What the defaults make of a sequence: zeros in front of a short one, the
    last [maxlen] tokens of a long one. *)
Definition pre_padded (maxlen : nat) (s : list Z) : list Z :=
  replicate (maxlen - length s) 0%Z ++ drop (length s - maxlen) s.

(** ** What a run may change *)

(** [m] keeps every object that is there when it starts, and rebinds no
    name outside [names]. *)
Definition frames {A} (names : list string) (m : M A) : Prop :=
  ∀ σ, heap σ `prefix_of` heap (m σ).2
       ∧ ∀ name, name ∉ names →
                 PyDict.get (globals (m σ).2) name = PyDict.get (globals σ) name.

(** [m] binds no name, makes no object, and changes at most the object
    at [x]. *)
Definition touches_only {A} (x : nat) (m : M A) : Prop :=
  ∀ σ, globals (m σ).2 = globals σ
       ∧ length (heap (m σ).2) = length (heap σ)
       ∧ ∀ l, l ≠ x → heap (m σ).2 !! l = heap σ !! l.

(** The cells on the data, run one after the other; the run stops at the
    first exception. *)
Definition data_cells (imdb : library) : M unit :=
  cell_load_data imdb;;
  cell_word_index imdb;;
  cell_show_review;;
  cell_pad.

(** The names a cell reads as its inputs. *)
Definition input_names : list string := ["x_train"; "y_train"; "x_test"; "y_test"].

(** ** Two libraries to run the cells on *)

(** A library with a word index of three words and three reviews, and one
    whose calls fail. *)
Definition small_imdb : library :=
  Library
    (λ _, Ok (([[1; 4; 5; 6]%Z; [1; 2; 5]%Z], [1; 0]%Z), ([[1; 6; 4]%Z], [1%Z])))
    (Ok [("the", 1%Z); ("and", 2%Z); ("a", 3%Z)]).

Definition offline_imdb : library :=
  Library (λ _, Raise (LibraryError "download failed"))
          (Raise (LibraryError "download failed")).

(** ** The notebook as a document

    The cells in their order.  A code cell has its source lines as they
    stand in the file (without the line ends); of a markdown cell only the
    first line is kept, the prose is no code. *)

Inductive cell :=
| Markdown (first_line : string)
| Code (source : list string).

(** The double quote. *)
Definition dq : string := String (Ascii.ascii_of_nat 34) EmptyString.

Definition notebook : list cell :=
[ Markdown ("<p style=" +:+ dq +:+ "text-align:center;" +:+ dq +:+ ">");
  Markdown "# Recurrent Neural Networks for Sentiment Classification";
  Markdown "Context matters for a lot of problems.";
  Code
    [ "%load_ext autoreload ";
      "%autoreload 2" ];
  Code
    [ "import keras";
      "import numpy as np";
      "import matplotlib.pyplot as plt";
      "import os";
      "import pandas as pd";
      "import seaborn as sns";
      "";
      "import utils";
      "";
      "%matplotlib inline" ];
  Markdown "## 1 Data";
  Code
    [ "from keras.datasets import imdb";
      "";
      "NUM_WORDS = 20000";
      "";
      "(x_train, y_train), (x_test, y_test) = imdb.load_data(num_words=NUM_WORDS)";
      "";
      "print('Loading data...')";
      "print(len(x_train), 'train sequences')";
      "print(len(x_test), 'test sequences')" ];
  Markdown "`x_train` and `x_test` are `numpy.ndarray`'s containing list of sequences.";
  Code
    [ "x_train[:3]" ];
  Markdown "This may be a valid way to represent text for machines, but it's not really usefull for humans.";
  Code
    [ "INDEX_FROM = 3   # First actual word.";
      "";
      "word_index = imdb.get_word_index()";
      "word_to_index = {k: (v + INDEX_FROM) for k, v in word_index.items()}";
      "# Add special words.";
      ("word_to_index[" +:+ dq +:+ "<PAD>" +:+ dq +:+ "] = 0  # Padding");
      ("word_to_index[" +:+ dq +:+ "<START>" +:+ dq +:+ "] = 1  # Starting of sequence");
      ("word_to_index[" +:+ dq +:+ "<UNK>" +:+ dq +:+ "] = 2  # Unknown word");
      "";
      "index_to_word = {v: k for k, v in word_to_index.items()}" ];
  Markdown "With our dictionary `index_to_word` we can display the original reviews:";
  Code
    [ "I_SHOW = 4";
      "";
      "' '.join([index_to_word[w] for w in x_train[I_SHOW]])" ];
  Markdown "Play around with `I_SHOW` and read some other reviews!";
  Markdown "## 2 Preprocessing";
  Markdown "The previous section showed that the text was encoded by integers, but we need to do some more processing: `keras` needs all sequences (/reviews) to be of equal length.";
  Code
    [ "from keras.preprocessing import sequence";
      "";
      "MAXLEN = 80";
      "";
      "X_train = sequence.pad_sequences(x_train, maxlen=MAXLEN)";
      "X_test = sequence.pad_sequences(x_test, maxlen=MAXLEN)";
      "";
      "print('Size of X_train', X_train.shape)";
      "print('Size of X_test', X_test.shape)" ];
  Markdown "Is this a valid threshold?";
  Code
    [ "lengths = [len(s) for s in x_train]";
      "";
      "fig, ax = plt.subplots(figsize=(10, 6))";
      "sns.kdeplot(lengths, cumulative=True, label='x_train', ax=ax)";
      "ax.plot((80, 80), ax.get_ylim(), '--k')";
      "ax.set_xlabel('Sequence lengths [# words]')";
      "ax.set_ylabel('Cumulative fraction')";
      "ax.set_title('Occurence of sequence lengths in reviews')";
      "ax.legend(['x_train', 'Max length'])" ];
  Markdown "We're now done with the preprocessing!";
  Code
    [ "print('Size of X_train:', X_train.shape)";
      "";
      "X_train[3, :]" ];
  Markdown "## 3 Theory";
  Markdown "We're done with all the data manipulation, how is our neural network going to look like?";
  Markdown "### 3.1 Embedding layer";
  Code
    [ "utils.one_hot_encoding()" ];
  Markdown ("The three text snippets " +:+ dq +:+ "$\textsf{code console}$" +:+ dq +:+ ", " +:+ dq +:+ "$\textsf{cry cat}$" +:+ dq +:+ " and " +:+ dq +:+ "$\textsf{dog}$" +:+ dq +:+ " are represented by combining these word vectors:");
  Code
    [ "utils.one_hot_document()" ];
  Markdown "This representation has some problems.";
  Code
    [ "utils.embedding_encoding()" ];
  Markdown ("We only need two dimensions for our words instead of five, " +:+ dq +:+ "$\mathsf{cat}$" +:+ dq +:+ " is close to " +:+ dq +:+ "$\mathsf{dog}$" +:+ dq +:+ ", and " +:+ dq +:+ "$\mathsf{console}$" +:+ dq +:+ " is somewhere between " +:+ dq +:+ "$\mathsf{code}$" +:+ dq +:+ " and " +:+ dq +:+ "$\mathsf{cry}$" +:+ dq +:+ ".");
  Code
    [ "utils.embedding_document()" ];
  Markdown ("The snippet " +:+ dq +:+ "$\textsf{dog}$" +:+ dq +:+ " is now closer to " +:+ dq +:+ "$\textsf{cry cat}$" +:+ dq +:+ " than to " +:+ dq +:+ "$\textsf{code console}$" +:+ dq +:+ ".");
  Markdown "These vectors are a thus __lower dimensional__, __denser representation__ of our words and they also capture __semantic information__ about words and their relationships to another. ";
  Markdown "Build an embedding layer in `keras` using `keras.layers.Embedding`.";
  Markdown "### 3.2 Recurrent layer";
  Markdown "### 3.3 Dense layer";
  Markdown "## 4 Model";
  Markdown "Now that we now how the architecture looks like and we have our data in `X_train` and `X_test`, it's time to build a model.";
  Code
    [ "from keras.callbacks import EarlyStopping, ModelCheckpoint";
      "from keras.models import Sequential";
      "from keras.layers import Dense, Embedding, LSTM";
      "" ];
  Markdown "If you reached the benchmarks, you've succesfully trained a recurrent neural network for text classification!";
  Markdown "# 5 Going deeper";
  Markdown "We've only touched the surfance on applying RNNs to text.";
  Markdown "> #### Exercise: Baseline";
  Code [];
  Markdown "> #### Exercise: Minimum Viable Network";
  Code [];
  Markdown "> #### Exercise: Visualizing Embeddings";
  Code [];
  Markdown "> #### Exercise: Transfer Learning";
  Code [] ].

(** *** Reading the source of a cell

    The words of a code cell, with strings and comments set apart, and for
    each the number of brackets open around it. *)

Inductive token :=
| Word (w : string)
| Punct (c : Ascii.ascii)
| Literal (s : string).

#[global] Instance token_eq_dec : EqDecision token.
Proof. solve_decision. Defined.

Inductive lex_mode :=
| InCode
| InWord (w : string)
| InString (q : Ascii.ascii) (s : string)
| InComment.

Definition is_word_char (c : Ascii.ascii) : bool :=
  let n := Ascii.nat_of_ascii c in
  (48 <=? n) && (n <=? 57) || (65 <=? n) && (n <=? 90)
  || (97 <=? n) && (n <=? 122) || (n =? 95).

Definition is_quote (c : Ascii.ascii) : bool :=
  let n := Ascii.nat_of_ascii c in (n =? 34) || (n =? 39).

Definition is_blank (c : Ascii.ascii) : bool :=
  let n := Ascii.nat_of_ascii c in (n =? 32) || (n =? 9).

Definition newline : string := String (Ascii.ascii_of_nat 10) EmptyString.

Definition snoc_char (s : string) (c : Ascii.ascii) : string := s +:+ String c EmptyString.

(** One character read outside a word, a string and a comment.  A line end
    is a token of its own: it ends a statement. *)
Definition lex_code (c : Ascii.ascii) : list token * lex_mode :=
  if is_word_char c then ([], InWord (String c EmptyString))
  else if is_quote c then ([], InString c EmptyString)
  else if Ascii.nat_of_ascii c =? 35 then ([], InComment)
  else if is_blank c then ([], InCode)
  else ([Punct c], InCode).

(** One character: the tokens it ends and the mode after it. *)
Definition lex_step (mode : lex_mode) (c : Ascii.ascii) : list token * lex_mode :=
  match mode with
  | InComment =>
      if Ascii.nat_of_ascii c =? 10 then ([Punct c], InCode) else ([], InComment)
  | InString q s =>
      if bool_decide (c = q) then ([Literal s], InCode)
      else ([], InString q (snoc_char s c))
  | InWord w =>
      if is_word_char c then ([], InWord (snoc_char w c))
      else (Word w :: (lex_code c).1, (lex_code c).2)
  | InCode => lex_code c
  end.

Fixpoint lex (mode : lex_mode) (src : string) : list token :=
  match src with
  | EmptyString =>
      match mode with
      | InWord w => [Word w]
      | InString _ s => [Literal s]
      | _ => []
      end
  | String c rest => (lex_step mode c).1 ++ lex (lex_step mode c).2 rest
  end.

Definition opens (c : Ascii.ascii) : bool :=
  let n := Ascii.nat_of_ascii c in (n =? 40) || (n =? 91) || (n =? 123).

Definition closes (c : Ascii.ascii) : bool :=
  let n := Ascii.nat_of_ascii c in (n =? 41) || (n =? 93) || (n =? 125).

(** Each token with the number of brackets open where it stands. *)
Fixpoint with_depth (depth : nat) (ts : list token) : list (token * nat) :=
  match ts with
  | [] => []
  | Punct c :: ts' =>
      if opens c then (Punct c, depth) :: with_depth (S depth) ts'
      else if closes c then (Punct c, pred depth) :: with_depth (pred depth) ts'
      else (Punct c, depth) :: with_depth depth ts'
  | t :: ts' => (t, depth) :: with_depth depth ts'
  end.

Definition source_tokens (source : list string) : list (token * nat) :=
  with_depth 0 (lex InCode (String.concat newline source)).

Definition cell_tokens (c : cell) : list (token * nat) :=
  match c with
  | Markdown _ => []
  | Code source => source_tokens source
  end.

(** The names that are called: a word with an opening parenthesis next. *)
Fixpoint called (ts : list (token * nat)) : list string :=
  match ts with
  | (Word f, _) :: (((Punct c, _) :: _) as ts') =>
      if Ascii.nat_of_ascii c =? 40 then f :: called ts' else called ts'
  | _ :: ts' => called ts'
  | [] => []
  end.

Definition calls_of (nb : list cell) : list string :=
  nb ≫= (λ c, called (cell_tokens c)).

Definition count_calls (f : string) (nb : list cell) : nat :=
  length (filter (λ g, g = f) (calls_of nb)).

Definition words_of (c : cell) : list string :=
  cell_tokens c ≫= (λ t, match t.1 with Word w => [w] | _ => [] end).

(** The keywords of a branch, of a loop and of exception handling.  The
    keyword [for] also stands in a comprehension, where it is inside
    brackets; a [for] statement is not. *)
Definition branch_keywords : list string := ["if"; "elif"; "else"; "match"; "case"].
Definition loop_keywords : list string := ["while"; "break"; "continue"].
Definition handler_keywords : list string :=
  ["try"; "except"; "finally"; "raise"; "with"; "assert"].

(** A token that is no keyword of a branch or a loop; a [for] is inside
    brackets. *)
Definition plain_token (t : token * nat) : Prop :=
  match t.1 with
  | Word w => (w ∉ branch_keywords) ∧ (w ∉ loop_keywords) ∧ (w = "for" → 1 ≤ t.2)
  | _ => True
  end.

#[global] Instance plain_token_dec t : Decision (plain_token t).
Proof. unfold plain_token. destruct (t.1); apply _. Defined.

Definition straight_line (c : cell) : Prop := Forall plain_token (cell_tokens c).

Definition unhandled (c : cell) : Prop :=
  Forall (λ w, w ∉ handler_keywords) (words_of c).

(** A source line that is blank or an import statement. *)
Definition import_line (line : string) : bool :=
  match lex InCode line with
  | [] => true
  | Word w :: _ => bool_decide (w ∈ ["import"; "from"])
  | _ => false
  end.

(** The cell that follows the markdown cell starting with [first_line]. *)
Fixpoint cell_after (first_line : string) (nb : list cell) : option cell :=
  match nb with
  | Markdown l :: ((c :: _) as nb') =>
      if decide (l = first_line) then Some c else cell_after first_line nb'
  | _ :: nb' => cell_after first_line nb'
  | [] => None
  end.

(** The headings of the four follow-up exercises of section 5, and the first
    line of the cell that sets the model exercise. *)
Definition follow_up_exercises : list string :=
  [ "> #### Exercise: Baseline";
    "> #### Exercise: Minimum Viable Network";
    "> #### Exercise: Visualizing Embeddings";
    "> #### Exercise: Transfer Learning" ].

Definition model_exercise : string :=
  "Now that we now how the architecture looks like and we have our data in `X_train` and `X_test`, it's time to build a model.".

(** The cells that follow the markdown cell starting with [first_line]. *)
Fixpoint cells_after (first_line : string) (nb : list cell) : list cell :=
  match nb with
  | Markdown l :: nb' =>
      if decide (l = first_line) then nb' else cells_after first_line nb'
  | _ :: nb' => cells_after first_line nb'
  | [] => []
  end.

(** The sources of the code cells. *)
Definition code_cells (nb : list cell) : list (list string) :=
  nb ≫= (λ c, match c with Code source => [source] | Markdown _ => [] end).

(** The names of the library that make a model and train it. *)
Definition model_calls : list string :=
  ["Sequential"; "Embedding"; "LSTM"; "Dense"; "add"; "compile"; "fit";
   "ModelCheckpoint"; "EarlyStopping"].

(** ** The other cells on the data *)

(** Cell 4: the value of the cell is [x_train[:3]], the first reviews. *)
Definition cell_peek : M (list (list Z)) :=
  x ← read_seqs "x_train";
  mret (slice_upto x 3).

(** Cell 9: the shape of [X_train] once more, and [X_train[3, :]], its row
    at index 3. *)
Definition cell_show_row : M (list Z) :=
  o ← read "X_train"; sh ← lift (shape_repr o);
  print ("Size of X_train: " +:+ sh);;
  o ← read "X_train";
  match o with
  | OArray _ rows => lift (getitem_seq rows 3)
  | _ => raise TypeError
  end.

(** A library with five reviews to train on. *)
Definition five_imdb : library :=
  Library
    (λ _, Ok (([[1; 4]%Z; [1; 5; 4]%Z; [1; 2]%Z; [1; 6; 6; 4]%Z; [1; 4; 5; 6]%Z],
               [1; 0; 0; 1; 1]%Z),
              ([[1; 6; 4]%Z], [1%Z])))
    (Ok [("the", 1%Z); ("and", 2%Z); ("a", 3%Z)]).
(** * Facts about the model *)

(** ** Dictionaries *)

Module PyDictFacts.
Import PyDict.
Section facts.
Context {K V : Type} `{EqDecision K}.
Implicit Types (d acc kvs : list (K * V)) (k : K) (v : V).

Lemma get_app d1 d2 k :
  get (d1 ++ d2) k = match get d1 k with Some v => Some v | None => get d2 k end.
Proof.
  induction d1 as [|[k' v'] d1 IH]; simpl; [done|].
  by destruct (decide (k' = k)).
Qed.

Lemma get_None d k : get d k = None ↔ k ∉ d.*1.
Proof.
  induction d as [|[k' v'] d IH]; simpl.
  - split; [intros _; apply not_elem_of_nil | done].
  - rewrite not_elem_of_cons. destruct (decide (k' = k)) as [->|Hne].
    + split; [done | intros [? _]; done].
    + rewrite IH. split; [intros ?; split; [congruence | done] | by intros [_ ?]].
Qed.

Lemma get_is_Some d k : is_Some (get d k) ↔ k ∈ d.*1.
Proof.
  rewrite <- not_eq_None_Some, get_None.
  split; [apply dec_stable | by intros ? ?].
Qed.

Lemma get_Some_elem d k v : get d k = Some v → (k, v) ∈ d.
Proof.
  induction d as [|[k' v'] d IH]; simpl; [done|].
  destruct (decide (k' = k)) as [->|Hne].
  - intros [= ->]. apply list_elem_of_here.
  - intros Hg. apply list_elem_of_further. by apply IH.
Qed.

Lemma elem_get_Some d k v : wf d → (k, v) ∈ d → get d k = Some v.
Proof.
  unfold wf. induction d as [|[k' v'] d IH]; simpl; intros Hnd Hin.
  - by apply elem_of_nil in Hin.
  - apply NoDup_cons in Hnd as [Hk' Hnd].
    apply elem_of_cons in Hin as [[= -> ->]|Hin].
    + by rewrite decide_True.
    + rewrite decide_False; [by apply IH|].
      intros ->. apply Hk'. apply list_elem_of_fmap. by exists (k, v).
Qed.

Lemma get_setitem_eq d k v : get (setitem k v d) k = Some v.
Proof.
  induction d as [|[k' v'] d IH]; simpl.
  - by rewrite decide_True.
  - destruct (decide (k' = k)) as [->|Hne]; simpl.
    + by rewrite decide_True.
    + by rewrite decide_False.
Qed.

Lemma get_setitem_ne d k k' v : k ≠ k' → get (setitem k v d) k' = get d k'.
Proof.
  intros Hne. induction d as [|[k0 v0] d IH]; simpl.
  - by rewrite decide_False.
  - destruct (decide (k0 = k)) as [->|Hne0]; simpl.
    + by rewrite !decide_False.
    + by rewrite IH.
Qed.

Lemma get_setitem d k k' v :
  get (setitem k v d) k' = if decide (k = k') then Some v else get d k'.
Proof.
  destruct (decide (k = k')) as [->|Hne];
    [apply get_setitem_eq | by apply get_setitem_ne].
Qed.

Lemma setitem_new d k v : k ∉ d.*1 → setitem k v d = d ++ [(k, v)].
Proof.
  induction d as [|[k' v'] d IH]; simpl; [done|].
  rewrite not_elem_of_cons. intros [Hne Hnin].
  rewrite decide_False by done. by rewrite IH.
Qed.

Lemma keys_setitem_old d k v : k ∈ d.*1 → (setitem k v d).*1 = d.*1.
Proof.
  induction d as [|[k' v'] d IH]; simpl.
  - intros Hin. by apply elem_of_nil in Hin.
  - intros Hin. destruct (decide (k' = k)) as [->|Hne]; simpl; [done|].
    apply elem_of_cons in Hin as [->|Hin]; [done|]. f_equal. by apply IH.
Qed.

Lemma wf_setitem d k v : wf d → wf (setitem k v d).
Proof.
  unfold wf. intros Hnd. destruct (decide (k ∈ d.*1)) as [Hin|Hnin].
  - by rewrite keys_setitem_old.
  - rewrite setitem_new, fmap_app by done. simpl.
    apply NoDup_app. split; [done|]. split; [|apply NoDup_singleton].
    intros x Hx ->%list_elem_of_singleton. done.
Qed.

Lemma wf_update acc kvs : wf acc → wf (update acc kvs).
Proof.
  unfold update. revert acc.
  induction kvs as [|[k v] kvs IH]; simpl; intros acc Hwf; [done|].
  apply IH. by apply wf_setitem.
Qed.

Lemma wf_of_items kvs : wf (of_items kvs).
Proof. apply wf_update. apply NoDup_nil_2. Qed.

(** The last pair inserted for a key is the one a later lookup finds. *)
Lemma get_update acc kvs k :
  get (update acc kvs) k =
  match get (reverse kvs) k with Some v => Some v | None => get acc k end.
Proof.
  unfold update. revert acc.
  induction kvs as [|[k' v'] kvs IH]; simpl; intros acc; [done|].
  rewrite IH, reverse_cons, get_app. simpl.
  destruct (get (reverse kvs) k); [done|].
  rewrite get_setitem. by destruct (decide (k' = k)).
Qed.

Lemma get_of_items kvs k : get (of_items kvs) k = get (reverse kvs) k.
Proof.
  unfold of_items. rewrite get_update. by destruct (get (reverse kvs) k).
Qed.

Lemma update_distinct acc kvs : wf (acc ++ kvs) → update acc kvs = acc ++ kvs.
Proof.
  unfold update, wf. revert acc.
  induction kvs as [|[k v] kvs IH]; simpl; intros acc Hnd.
  - by rewrite app_nil_r.
  - rewrite fmap_app in Hnd. simpl in Hnd.
    apply NoDup_app in Hnd as (Hacc & Hdisj & Hkvs).
    rewrite setitem_new by (intros Hin; apply (Hdisj _ Hin), list_elem_of_here).
    rewrite IH; [by rewrite <- app_assoc|].
    rewrite <- app_assoc, fmap_app. simpl.
    apply NoDup_app. done.
Qed.

(** A comprehension over pairs whose keys are distinct keeps them as they
    come. *)
Lemma of_items_distinct kvs : wf kvs → of_items kvs = kvs.
Proof. intros Hwf. unfold of_items. by rewrite update_distinct. Qed.

End facts.
End PyDictFacts.

(** ** The word index *)

Section word_index_facts.
Import PyDict PyDictFacts.
Implicit Types (wi d : list (string * Z)) (k w : string) (v i : Z).

Lemma get_fmap_values {K V W} `{EqDecision K} (f : V → W)
    (kvs : list (K * V)) (key : K) :
  get ((λ kv, (kv.1, f kv.2)) <$> kvs) key = f <$> get kvs key.
Proof.
  induction kvs as [|[k' v'] kvs IH]; simpl; [done|].
  by destruct (decide (k' = key)).
Qed.

Lemma shifted_index_fmap wi :
  wf wi → shifted_index wi = (λ kv, (kv.1, (kv.2 + INDEX_FROM)%Z)) <$> wi.
Proof.
  intros Hwf. unfold shifted_index. apply of_items_distinct.
  unfold wf in *. by rewrite <- list_fmap_compose.
Qed.

Lemma get_shifted_index wi k :
  wf wi → get (shifted_index wi) k = (λ v, (v + 3)%Z) <$> get wi k.
Proof.
  intros Hwf. rewrite shifted_index_fmap by done.
  apply (get_fmap_values (λ v, (v + INDEX_FROM)%Z)).
Qed.

Lemma get_word_to_index d0 k :
  get (setitem "<UNK>" 2%Z (setitem "<START>" 1%Z (setitem "<PAD>" 0%Z d0))) k =
  if decide ("<UNK>" = k) then Some 2%Z
  else if decide ("<START>" = k) then Some 1%Z
  else if decide ("<PAD>" = k) then Some 0%Z
  else get d0 k.
Proof. by rewrite !get_setitem. Qed.

Lemma special_words_cases k :
  k ∉ special_words ↔ "<UNK>" ≠ k ∧ "<START>" ≠ k ∧ "<PAD>" ≠ k.
Proof.
  unfold special_words. rewrite !not_elem_of_cons. split.
  - intros (? & ? & ? & _). repeat split; congruence.
  - intros (? & ? & ?). repeat split; try congruence. apply not_elem_of_nil.
Qed.

Lemma get_word_to_index_other wi k :
  k ∉ special_words → get (word_to_index wi) k = get (shifted_index wi) k.
Proof.
  intros (? & ? & ?)%special_words_cases. unfold word_to_index.
  rewrite get_word_to_index. by rewrite !decide_False.
Qed.

Lemma wf_word_to_index wi : wf (word_to_index wi).
Proof.
  unfold word_to_index, shifted_index.
  do 3 apply wf_setitem. apply wf_of_items.
Qed.

Lemma reserved_cases i : i ∉ [0; 1; 2]%Z ↔ i ≠ 0%Z ∧ i ≠ 1%Z ∧ i ≠ 2%Z.
Proof.
  rewrite !not_elem_of_cons. split.
  - intros (? & ? & ? & _). done.
  - intros (? & ? & ?). repeat split; try done. apply not_elem_of_nil.
Qed.

(** An entry of the inverse comes from an entry of the dict. *)
Lemma get_inverted d i k : wf d → get (inverted d) i = Some k → get d k = Some i.
Proof.
  intros Hwf Hg. unfold inverted in Hg. rewrite get_of_items in Hg.
  apply get_Some_elem, elem_of_reverse, list_elem_of_fmap in Hg
    as ([k' i'] & [= -> ->] & Hin).
  by apply elem_get_Some.
Qed.

(** Every value of the dict is a key of the inverse. *)
Lemma inverted_is_Some d k i : get d k = Some i → is_Some (get (inverted d) i).
Proof.
  intros Hg%get_Some_elem. unfold inverted.
  rewrite get_of_items. apply get_is_Some.
  apply list_elem_of_fmap. exists (i, k). split; [done|].
  apply elem_of_reverse, list_elem_of_fmap. by exists (k, i).
Qed.

(** The inverse undoes a dict whose values are distinct. *)
Lemma inverted_round_trip d k i :
  wf d → distinct_ids d → get d k = Some i → get (inverted d) i = Some k.
Proof.
  intros Hwf Hinj Hg.
  destruct (inverted_is_Some d k i Hg) as [k' Hk'].
  rewrite Hk'. f_equal. apply (Hinj k' k i); [|done].
  by apply get_inverted.
Qed.

(** Where an entry of [word_to_index] comes from. *)
Lemma word_to_index_cases wi k i :
  wf wi → get (word_to_index wi) k = Some i →
  (k = "<UNK>" ∧ i = 2%Z) ∨ (k = "<START>" ∧ i = 1%Z) ∨ (k = "<PAD>" ∧ i = 0%Z)
  ∨ ((k ∉ special_words) ∧ ∃ v, get wi k = Some v ∧ i = (v + 3)%Z).
Proof.
  intros Hwf. unfold word_to_index. rewrite get_word_to_index.
  destruct (decide ("<UNK>" = k)) as [<-|?]; [intros [= <-]; by left|].
  destruct (decide ("<START>" = k)) as [<-|?]; [intros [= <-]; right; by left|].
  destruct (decide ("<PAD>" = k)) as [<-|?]; [intros [= <-]; do 2 right; by left|].
  rewrite get_shifted_index by done. intros Hg. do 3 right.
  split; [by apply special_words_cases|].
  destruct (get wi k) as [v|]; simplify_eq/=. by exists v.
Qed.

(** The ids stay distinct once the markers are in, when no word of the
    library is shifted onto a marker's id. *)
Lemma word_to_index_distinct wi :
  wf wi → distinct_ids wi →
  (∀ k v, get wi k = Some v → (v + 3)%Z ∉ [0; 1; 2]%Z) →
  distinct_ids (word_to_index wi).
Proof.
  intros Hwf Hinj Hres k1 k2 i H1 H2.
  assert (∀ k v c, get wi k = Some v → c ∈ [0; 1; 2]%Z → c ≠ (v + 3)%Z) as Hno.
  { intros k v c Hk Hc ->. by apply (Hres k v). }
  apply (word_to_index_cases _ _ _ Hwf) in H1
    as [[-> ->]|[[-> ->]|[[-> ->]|(Hk1 & v1 & Hv1 & ->)]]];
  apply (word_to_index_cases _ _ _ Hwf) in H2
    as [[-> E]|[[-> E]|[[-> E]|(Hk2 & v2 & Hv2 & E)]]]; try done;
  try (exfalso; eapply Hno; [eassumption| |eassumption || (symmetry; eassumption)];
       rewrite !elem_of_cons; lia).
  apply (Hinj k1 k2 v1); [done|]. rewrite Hv2. f_equal. lia.
Qed.

(** A token the loader can give is a key of [index_to_word], when no marker
    is a word of the library. *)
Lemma loaded_token_known wi i :
  wf wi → (∀ k, k ∈ special_words → get wi k = None) →
  loaded_token wi i → is_Some (get (index_to_word wi) i).
Proof.
  intros Hwf Hsp [Hi|(k & v & Hk & ->)]; unfold index_to_word.
  - rewrite !elem_of_cons in Hi. destruct Hi as [->|[->|[->|Hi]]].
    + apply (inverted_is_Some _ "<PAD>"). unfold word_to_index.
      by rewrite get_word_to_index.
    + apply (inverted_is_Some _ "<START>"). unfold word_to_index.
      by rewrite get_word_to_index.
    + apply (inverted_is_Some _ "<UNK>"). unfold word_to_index.
      by rewrite get_word_to_index.
    + by apply elem_of_nil in Hi.
  - apply (inverted_is_Some _ k).
    rewrite get_word_to_index_other, get_shifted_index, Hk; [done..|].
    intros Hin. specialize (Hsp _ Hin). congruence.
Qed.

Lemma list_comp_total {A B} (f : A → result B) (xs : list A) :
  (∀ x, x ∈ xs → ∃ y, f x = Ok y) → ∃ ys, list_comp f xs = Ok ys.
Proof.
  induction xs as [|x xs IH]; simpl; intros Hf; [by eexists|].
  destruct (Hf x) as [y ->]; [apply list_elem_of_here|].
  destruct IH as [ys ->]; [intros ? ?; by apply Hf, list_elem_of_further|].
  by eexists.
Qed.

Lemma getitem_seq_valid {A} (x : list A) (i : Z) :
  valid_index x i → ∃ row, getitem_seq x i = Ok row ∧ row ∈ x.
Proof.
  unfold valid_index, getitem_seq. intros Hi.
  set (j := if (i <? 0)%Z then (i + Z.of_nat (length x))%Z else i).
  assert (0 ≤ j < Z.of_nat (length x))%Z as Hj
    by (unfold j; destruct (Z.ltb_spec i 0); lia).
  rewrite (proj2 (Z.leb_le _ _)), (proj2 (Z.ltb_lt _ _)) by lia. simpl.
  destruct (lookup_lt_is_Some_2 x (Z.to_nat j)) as [row Hrow]; [lia|].
  rewrite Hrow. exists row. split; [done|]. by eapply list_elem_of_lookup_2.
Qed.

End word_index_facts.

(** ** Padding *)

Section pad_facts.
Implicit Types (s row trunc : list Z) (x sequences : list (list Z)).

Lemma list_comp_fmap {A B} (g : A → result B) (f : A → B) (xs : list A) :
  (∀ a, a ∈ xs → g a = Ok (f a)) → list_comp g xs = Ok (f <$> xs).
Proof.
  induction xs as [|a xs IH]; simpl; intros Hg; [done|].
  rewrite Hg by apply list_elem_of_here.
  rewrite IH by (intros ? ?; by apply Hg, list_elem_of_further). done.
Qed.

(** A negative bound [-m] on a sequence of length [n] is the cut at
    [n - m]. *)
Lemma slice_bound_neg (n m : nat) : 1 ≤ m → slice_bound n (- Z.of_nat m) = n - m.
Proof.
  intros Hm. unfold slice_bound.
  destruct (Z.ltb_spec (- Z.of_nat m) 0); lia.
Qed.

Lemma slice_from_neg {A} (s : list A) (m : nat) :
  1 ≤ m → slice_from s (- Z.of_nat m) = drop (length s - m) s.
Proof. intros Hm. unfold slice_from. by rewrite slice_bound_neg. Qed.

Lemma broadcast_to_same (src : list Z) : broadcast_to (length src) src = Ok src.
Proof. unfold broadcast_to. by rewrite decide_True. Qed.

(** The row that the defaults give. *)
Lemma padded_row_pre (maxlen : nat) s :
  1 ≤ maxlen → padded_row maxlen pre pre 0 s = Ok (pre_padded maxlen s).
Proof.
  intros Hm. unfold padded_row, pad_row, pre_padded.
  destruct (decide (length s = 0)) as [Hs|Hs].
  - apply nil_length_inv in Hs as ->. simpl.
    by rewrite Nat.sub_0_r, app_nil_r.
  - rewrite slice_from_neg by done.
    set (trunc := drop (length s - maxlen) s).
    assert (length trunc = length s `min` maxlen) as Hlen
      by (unfold trunc; rewrite length_drop; lia).
    unfold assign_from. rewrite length_replicate.
    rewrite slice_bound_neg by lia.
    replace (maxlen - (maxlen - length trunc)) with (length trunc) by lia.
    rewrite broadcast_to_same. simpl.
    rewrite take_replicate. do 3 f_equal. lia.
Qed.

Lemma length_pre_padded (maxlen : nat) s : length (pre_padded maxlen s) = maxlen.
Proof.
  unfold pre_padded. rewrite length_app, length_replicate, length_drop. lia.
Qed.

(** The loop writes the rows from [idx] on and leaves the others. *)
Lemma pad_loop_list_comp maxlen padding truncating value idx sequences x :
  (∀ j, idx ≤ j < idx + length sequences →
        x !! j = Some (replicate maxlen value)) →
  pad_loop maxlen padding truncating value idx sequences x =
  rows ← list_comp (padded_row maxlen padding truncating value) sequences;
  Ok (take idx x ++ rows ++ drop (idx + length sequences) x).
Proof.
  revert idx x. induction sequences as [|s rest IH]; simpl; intros idx x Hx.
  - by rewrite Nat.add_0_r, take_drop.
  - rewrite (Hx idx) by lia. fold (padded_row maxlen padding truncating value s).
    destruct (padded_row maxlen padding truncating value s) as [row'|e]; simpl; [|done].
    assert (idx < length x) as Hidx
      by (apply lookup_lt_is_Some; rewrite (Hx idx) by lia; by eexists).
    rewrite IH.
    + destruct (list_comp _ rest) as [rows|e]; simpl; [|done].
      rewrite (take_S_r _ _ row') by (by apply list_lookup_insert_eq).
      rewrite take_insert_ge, drop_insert_lt by lia.
      rewrite <- app_assoc. simpl. by rewrite Nat.add_succ_r.
    + intros j Hj. rewrite list_lookup_insert_ne by lia. apply Hx. lia.
Qed.

(** The call gives the rows of its sequences, one for one, and raises where
    a row does. *)
Lemma pad_sequences_with_list_comp maxlen padding truncating value sequences :
  pad_sequences_with maxlen padding truncating value sequences =
  list_comp (padded_row maxlen padding truncating value) sequences.
Proof.
  unfold pad_sequences_with. rewrite pad_loop_list_comp.
  - destruct (list_comp _ sequences) as [rows|e]; simpl; [|done].
    rewrite drop_ge by (rewrite length_replicate; lia).
    by rewrite app_nil_r.
  - intros j Hj. apply lookup_replicate_2. lia.
Qed.

Lemma pad_sequences_pre sequences (maxlen : nat) :
  1 ≤ maxlen → pad_sequences sequences maxlen = Ok (pre_padded maxlen <$> sequences).
Proof.
  intros Hm. unfold pad_sequences. rewrite pad_sequences_with_list_comp.
  apply list_comp_fmap. intros s _. by apply padded_row_pre.
Qed.

End pad_facts.

(** ** The kernel *)

Section kernel_facts.
Import PyDict PyDictFacts.
Implicit Types (σ : kernel) (g : list (string * nat)) (h : list obj)
  (out : list string) (o : obj) (l : nat) (name : string).

(** *** Running a sequence *)

Lemma bind_ok {A B} (m : M A) (f : A → M B) σ a σ' :
  m σ = (Ok a, σ') → (m ≫= f) σ = f a σ'.
Proof. intros Hm. unfold mbind, M_bind. by rewrite Hm. Qed.

(** An exception of the first part ends the sequence: the rest does not run
    and the exception comes out as it was raised. *)
Lemma bind_raise {A B} (m : M A) (f : A → M B) σ e σ' :
  m σ = (Raise e, σ') → (m ≫= f) σ = (Raise e, σ').
Proof. intros Hm. unfold mbind, M_bind. by rewrite Hm. Qed.

(** *** The heap: an object that was just made is the last one *)

Lemma lookup_snoc_here h o : (h ++ [o]) !! length h = Some o.
Proof. by apply list_lookup_middle. Qed.

Lemma lookup_snoc_old h o l o' : h !! l = Some o' → (h ++ [o]) !! l = Some o'.
Proof. apply lookup_app_l_Some. Qed.

Lemma insert_snoc_here h o o' : <[length h := o']> (h ++ [o]) = h ++ [o'].
Proof.
  rewrite insert_app_r_alt by done. by rewrite Nat.sub_diag.
Qed.

(** *** The steps of a cell *)

Lemma read_run name g h out l o :
  get g name = Some l → h !! l = Some o →
  read name (Kernel g h out) = (Ok o, Kernel g h out).
Proof.
  intros Hg Hl. unfold read, name_lookup, deref, mbind, M_bind. simpl.
  rewrite Hg. simpl. by rewrite Hl.
Qed.

Lemma read_int_run name g h out l n :
  get g name = Some l → h !! l = Some (OInt n) →
  read_int name (Kernel g h out) = (Ok n, Kernel g h out).
Proof.
  intros Hg Hl. unfold read_int. by erewrite bind_ok by by eapply read_run.
Qed.

Lemma read_dict_si_run name g h out l d :
  get g name = Some l → h !! l = Some (ODictSI d) →
  read_dict_si name (Kernel g h out) = (Ok d, Kernel g h out).
Proof.
  intros Hg Hl. unfold read_dict_si. by erewrite bind_ok by by eapply read_run.
Qed.

Lemma read_dict_is_run name g h out l d :
  get g name = Some l → h !! l = Some (ODictIS d) →
  read_dict_is name (Kernel g h out) = (Ok d, Kernel g h out).
Proof.
  intros Hg Hl. unfold read_dict_is. by erewrite bind_ok by by eapply read_run.
Qed.

Lemma read_seqs_run name g h out l x :
  get g name = Some l → h !! l = Some (OSeqs x) →
  read_seqs name (Kernel g h out) = (Ok x, Kernel g h out).
Proof.
  intros Hg Hl. unfold read_seqs. by erewrite bind_ok by by eapply read_run.
Qed.

Lemma dict_setitem_run name k v g h out l d :
  get g name = Some l → h !! l = Some (ODictSI d) →
  dict_setitem name k v (Kernel g h out) =
  (Ok (), Kernel g (<[l := ODictSI (setitem k v d)]> h) out).
Proof.
  intros Hg Hl. unfold dict_setitem, name_lookup, deref, mbind, M_bind. simpl.
  rewrite Hg. simpl. by rewrite Hl.
Qed.


(** *** A cell that binds names and makes objects *)

Lemma frames_ret {A} names (a : A) : frames names (mret a).
Proof. intros σ. simpl. split; [done|]. by intros. Qed.

Lemma frames_raise {A} names e : frames names (@raise A e).
Proof. intros σ. simpl. split; [done|]. by intros. Qed.

Lemma frames_lift {A} names (r : result A) : frames names (lift r).
Proof. intros σ. simpl. split; [done|]. by intros. Qed.

Lemma frames_bind {A B} names (m : M A) (f : A → M B) :
  frames names m → (∀ a, frames names (f a)) → frames names (m ≫= f).
Proof.
  intros Hm Hf σ. destruct (Hm σ) as [Hpre Hnames].
  unfold mbind, M_bind. destruct (m σ) as [[a|e] σ1]; simpl in *; [|done].
  destruct (Hf a σ1) as [Hpre' Hnames']. split.
  - by etrans.
  - intros name Hname. by rewrite Hnames', Hnames.
Qed.

Lemma frames_alloc names o : frames names (alloc o).
Proof. intros σ. simpl. split; [by apply prefix_app_r|]. by intros. Qed.

Lemma frames_assign names name l : name ∈ names → frames names (assign name l).
Proof.
  intros Hin σ. simpl. split; [done|].
  intros name' Hname'. apply get_setitem_ne. by intros ->.
Qed.

Lemma frames_name_lookup names name : frames names (name_lookup name).
Proof.
  intros σ. unfold name_lookup. destruct (get _ _); simpl; (split; [done|]); by intros.
Qed.

Lemma frames_deref names l : frames names (deref l).
Proof.
  intros σ. unfold deref. destruct (_ !! _); simpl; (split; [done|]); by intros.
Qed.

Lemma frames_print names line : frames names (print line).
Proof. intros σ. simpl. split; [done|]. by intros. Qed.

Lemma frames_read names name : frames names (read name).
Proof.
  apply frames_bind; [apply frames_name_lookup|]. intros l. apply frames_deref.
Qed.

Lemma frames_read_int names name : frames names (read_int name).
Proof.
  apply frames_bind; [apply frames_read|].
  intros []; first [apply frames_ret | apply frames_raise].
Qed.

Lemma frames_assign_int names name n :
  name ∈ names → frames names (assign_int name n).
Proof.
  intros Hin. apply frames_bind; [apply frames_alloc|].
  intros l. by apply frames_assign.
Qed.

(** *** The loop of [pad_sequences] writes to its own array only *)

Lemma touches_only_ret {A} x (a : A) : touches_only x (mret a).
Proof. by intros σ. Qed.

Lemma touches_only_raise {A} x e : touches_only x (@raise A e).
Proof. by intros σ. Qed.

Lemma touches_only_lift {A} x (r : result A) : touches_only x (lift r).
Proof. by intros σ. Qed.

Lemma touches_only_bind {A B} x (m : M A) (f : A → M B) :
  touches_only x m → (∀ a, touches_only x (f a)) → touches_only x (m ≫= f).
Proof.
  intros Hm Hf σ. destruct (Hm σ) as (Hg & Hlen & Hl).
  unfold mbind, M_bind. destruct (m σ) as [[a|e] σ1]; simpl in *; [|done].
  destruct (Hf a σ1) as (Hg' & Hlen' & Hl'). split_and!.
  - congruence.
  - congruence.
  - intros l Hne. by rewrite Hl', Hl.
Qed.

Lemma touches_only_deref x l : touches_only x (deref l).
Proof. intros σ. unfold deref. by destruct (_ !! _). Qed.

Lemma touches_only_read_row x idx : touches_only x (read_row x idx).
Proof.
  apply touches_only_bind; [apply touches_only_deref|].
  intros [| | | | |n rows]; try apply touches_only_raise.
  destruct (rows !! idx); [apply touches_only_ret | apply touches_only_raise].
Qed.

Lemma touches_only_write_row x idx row : touches_only x (write_row x idx row).
Proof.
  apply touches_only_bind; [apply touches_only_deref|].
  intros [| | | | |n rows]; try apply touches_only_raise.
  intros σ. simpl. split_and!; [done|apply length_insert|].
  intros l Hne. by apply list_lookup_insert_ne.
Qed.

Lemma touches_only_pad_loop_at x maxlen idx sequences :
  touches_only x (pad_loop_at x maxlen idx sequences).
Proof.
  revert idx. induction sequences as [|s rest IH]; intros idx; simpl.
  - apply touches_only_ret.
  - apply touches_only_bind; [apply touches_only_read_row|]. intros row.
    apply touches_only_bind; [apply touches_only_lift|]. intros row'.
    apply touches_only_bind; [apply touches_only_write_row|]. intros _.
    apply IH.
Qed.

(** The call makes one object and leaves the others as they are. *)
Lemma frames_keras_pad_sequences names src maxlen :
  frames names (keras_pad_sequences src maxlen).
Proof.
  apply frames_bind; [apply frames_deref|].
  intros [| | |sequences| |]; try apply frames_raise.
  destruct (maxlen <? 0)%Z; [apply frames_raise|].
  intros σ. unfold mbind, M_bind. simpl.
  set (σ1 := Kernel _ (heap σ ++ _) _).
  destruct (touches_only_pad_loop_at (length (heap σ)) (Z.to_nat maxlen) 0
              sequences σ1) as (Hg & Hlen & Hl).
  assert (heap σ `prefix_of`
            heap (pad_loop_at (length (heap σ)) (Z.to_nat maxlen) 0 sequences σ1).2)
    as Hpre.
  { exists (drop (length (heap σ))
              (heap (pad_loop_at (length (heap σ)) (Z.to_nat maxlen) 0
                       sequences σ1).2)).
    rewrite <- (take_drop (length (heap σ))) at 1. f_equal.
    apply list_eq. intros i.
    destruct (decide (i < length (heap σ))) as [Hi|Hi].
    - rewrite lookup_take_lt, Hl by lia. simpl.
      by rewrite lookup_app_l.
    - rewrite lookup_take_ge by lia. symmetry. apply lookup_ge_None. lia. }
  destruct (pad_loop_at _ _ _ _ σ1) as [[[]|e] σ2]; simpl in *;
    (split; [done|]); intros; by rewrite Hg.
Qed.

End kernel_facts.

(** ** The cells *)

Section cell_facts.
Import PyDict PyDictFacts.
Implicit Types (σ : kernel) (g : list (string * nat)) (h : list obj)
  (out : list string) (imdb : library).

(** Running a cell step by step: the binding of a name that was just
    assigned, the object that was just made. *)
Ltac solve_get :=
  repeat first [rewrite get_setitem_eq | rewrite get_setitem_ne by done];
  first [reflexivity | eassumption].

Ltac solve_lookup :=
  repeat first [apply lookup_snoc_here | apply lookup_snoc_old];
  try eassumption.

Ltac step :=
  erewrite bind_ok by reflexivity; cbv beta; cbn [globals heap stdout].

Ltac step_with lem :=
  erewrite bind_ok by (eapply lem; [solve_get | solve_lookup]);
  cbv beta; rewrite ?insert_snoc_here.

(** Cell 3 when the loader returns. *)
Lemma cell_load_data_run imdb g h out xtr ytr xte yte :
  load_data imdb NUM_WORDS = Ok ((xtr, ytr), (xte, yte)) →
  cell_load_data imdb (Kernel g h out) =
  (Ok (),
   Kernel
     (setitem "y_test" (length h + 4)
        (setitem "x_test" (length h + 3)
           (setitem "y_train" (length h + 2)
              (setitem "x_train" (length h + 1)
                 (setitem "NUM_WORDS" (length h) g)))))
     (h ++ [OInt 20000; OSeqs xtr; OLabels ytr; OSeqs xte; OLabels yte])
     (out ++ ["Loading data...";
              pretty (length xtr) +:+ " train sequences";
              pretty (length xte) +:+ " test sequences"])).
Proof.
  intros Hload. unfold cell_load_data.
  step. step_with read_int_run.
  erewrite bind_ok by (unfold lift; rewrite Hload; reflexivity). cbv beta iota.
  do 9 step.
  step_with read_seqs_run. step.
  step_with read_seqs_run.
  unfold print. cbn [globals heap stdout].
  rewrite !length_app. simpl. rewrite <- !app_assoc. simpl.
  by rewrite <- !Nat.add_assoc.
Qed.

(** Cell 3 when the loader raises. *)
Lemma cell_load_data_raise imdb g h out e :
  load_data imdb NUM_WORDS = Raise e →
  cell_load_data imdb (Kernel g h out) =
  (Raise e, Kernel (setitem "NUM_WORDS" (length h) g) (h ++ [OInt 20000]) out).
Proof.
  intros Hload. unfold cell_load_data.
  step. step_with read_int_run.
  by erewrite bind_raise by (unfold lift; rewrite Hload; reflexivity).
Qed.

(** Cell 5 when the library gives its index: the cell makes four objects,
    the constant, the library's dict and the two dicts of the notebook. *)
Lemma cell_word_index_run imdb g h out raw :
  get_word_index imdb = Ok raw →
  cell_word_index imdb (Kernel g h out) =
  (Ok (),
   Kernel
     (setitem "index_to_word" (length h + 3)
        (setitem "word_to_index" (length h + 2)
           (setitem "word_index" (length h + 1)
              (setitem "INDEX_FROM" (length h) g))))
     (h ++ [OInt 3; ODictSI (of_items raw);
            ODictSI (word_to_index (of_items raw));
            ODictIS (index_to_word (of_items raw))])
     out).
Proof.
  intros Hraw. unfold cell_word_index.
  step.
  erewrite bind_ok by (unfold lift; rewrite Hraw; reflexivity). cbv beta.
  step. step.
  step_with read_dict_si_run.
  step_with read_int_run.
  step. step.
  do 3 step_with dict_setitem_run.
  step_with read_dict_si_run.
  step. unfold assign. cbn [globals heap stdout].
  rewrite !length_app. simpl. rewrite <- !app_assoc. simpl.
  by rewrite <- !Nat.add_assoc.
Qed.

Lemma cell_word_index_raise imdb g h out e :
  get_word_index imdb = Raise e →
  cell_word_index imdb (Kernel g h out) =
  (Raise e, Kernel (setitem "INDEX_FROM" (length h) g) (h ++ [OInt 3]) out).
Proof.
  intros Hraw. unfold cell_word_index.
  step.
  by erewrite bind_raise by (unfold lift; rewrite Hraw; reflexivity).
Qed.

(** Cell 7 keeps every object and binds its three names only. *)
Lemma frames_cell_pad : frames ["MAXLEN"; "X_train"; "X_test"] cell_pad.
Proof.
  assert (∀ name, name ∈ ["MAXLEN"; "X_train"; "X_test"] ↔
                  name = "MAXLEN" ∨ name = "X_train" ∨ name = "X_test") as Hin.
  { intros name. rewrite !elem_of_cons, elem_of_nil. tauto. }
  unfold cell_pad.
  repeat first
    [ apply frames_assign_int; apply Hin; tauto
    | apply frames_assign; apply Hin; tauto
    | apply frames_name_lookup
    | apply frames_read_int
    | apply frames_read
    | apply frames_keras_pad_sequences
    | apply frames_lift
    | apply frames_print
    | apply frames_bind; [|intros ?] ].
Qed.


(** The loop in the kernel does to the array at [x] what the loop on the
    rows does. *)
Lemma pad_loop_at_run x maxlen idx sequences g h out rows X :
  h !! x = Some (OArray maxlen rows) →
  pad_loop maxlen pre pre 0 idx sequences rows = Ok X →
  pad_loop_at x maxlen idx sequences (Kernel g h out) =
  (Ok (), Kernel g (<[x := OArray maxlen X]> h) out).
Proof.
  revert idx h rows. induction sequences as [|s rest IH]; simpl;
    intros idx h rows Hx Hloop.
  - injection Hloop as <-. by rewrite list_insert_id.
  - destruct (rows !! idx) as [row|] eqn:Hrow; [|done].
    destruct (pad_row maxlen pre pre 0 row s) as [row'|e] eqn:Hpad; [|done].
    simpl in Hloop.
    erewrite bind_ok; cycle 1.
    { unfold read_row, deref, mbind, M_bind. simpl. rewrite Hx, Hrow. done. }
    erewrite bind_ok by (unfold lift; rewrite Hpad; reflexivity).
    erewrite bind_ok; cycle 1.
    { unfold write_row, deref, mbind, M_bind. simpl. rewrite Hx. done. }
    erewrite IH;
      [|apply list_lookup_insert_eq; by apply lookup_lt_Some in Hx|done].
    by rewrite list_insert_insert_eq.
Qed.

(** The call in the kernel makes the array that [pad_sequences] gives. *)
Lemma keras_pad_sequences_run src (maxlen : nat) g h out sequences X :
  h !! src = Some (OSeqs sequences) →
  pad_sequences sequences maxlen = Ok X →
  keras_pad_sequences src (Z.of_nat maxlen) (Kernel g h out) =
  (Ok (length h), Kernel g (h ++ [OArray maxlen X]) out).
Proof.
  intros Hsrc Hpad. unfold keras_pad_sequences.
  erewrite bind_ok; cycle 1.
  { unfold deref. simpl. by rewrite Hsrc. }
  simpl. rewrite (proj2 (Z.ltb_ge _ _)) by lia. rewrite Nat2Z.id.
  step.
  erewrite bind_ok; cycle 1.
  { eapply pad_loop_at_run; [apply lookup_snoc_here | exact Hpad]. }
  by rewrite insert_snoc_here.
Qed.

(** Cell 7 on two sets of reviews: [X_train] and [X_test] are the arrays
    of their padded rows. *)
Lemma cell_pad_run g h out l1 l2 xtr xte :
  get g "x_train" = Some l1 → h !! l1 = Some (OSeqs xtr) →
  get g "x_test" = Some l2 → h !! l2 = Some (OSeqs xte) →
  cell_pad (Kernel g h out) =
  (Ok (),
   Kernel
     (setitem "X_test" (length h + 2)
        (setitem "X_train" (length h + 1)
           (setitem "MAXLEN" (length h) g)))
     (h ++ [OInt 80; OArray 80 (pre_padded 80 <$> xtr);
            OArray 80 (pre_padded 80 <$> xte)])
     (out ++ ["Size of X_train (" +:+ pretty (length xtr) +:+ ", 80)";
              "Size of X_test (" +:+ pretty (length xte) +:+ ", 80)"])).
Proof.
  intros Hg1 Hl1 Hg2 Hl2. unfold cell_pad.
  step.
  erewrite bind_ok by (unfold name_lookup; simpl;
                       rewrite get_setitem_ne, Hg1 by done; reflexivity).
  cbv beta. step_with read_int_run.
  erewrite bind_ok; cycle 1.
  { eapply (keras_pad_sequences_run _ MAXLEN); [solve_lookup|].
    apply pad_sequences_pre. unfold MAXLEN. lia. }
  cbv beta. step.
  erewrite bind_ok by (unfold name_lookup; simpl;
                       rewrite !get_setitem_ne, Hg2 by done; reflexivity).
  cbv beta. step_with read_int_run.
  erewrite bind_ok; cycle 1.
  { eapply (keras_pad_sequences_run _ MAXLEN); [solve_lookup|].
    apply pad_sequences_pre. unfold MAXLEN. lia. }
  cbv beta. step.
  step_with read_run. step. step.
  step_with read_run. step.
  unfold print. cbn [globals heap stdout].
  rewrite !length_app, !length_fmap. simpl. rewrite <- !app_assoc. simpl.
  by rewrite <- !Nat.add_assoc.
Qed.

(** Cell 6 shows the review at row 4 as [show_review] decodes it. *)
Lemma cell_show_review_run g h out l1 l2 x i2w :
  get g "x_train" = Some l1 → h !! l1 = Some (OSeqs x) →
  get g "index_to_word" = Some l2 → h !! l2 = Some (ODictIS i2w) →
  (cell_show_review (Kernel g h out)).1 = show_review i2w x 4.
Proof.
  intros Hg1 Hl1 Hg2 Hl2. unfold cell_show_review, show_review.
  step. step_with read_seqs_run. step_with read_int_run.
  unfold lift at 1, mbind at 1, M_bind at 1.
  destruct (getitem_seq x 4) as [row|e]; simpl; [|done].
  destruct row as [|w row]; [done|].
  unfold mbind, M_bind.
  erewrite read_dict_is_run; [|solve_get|solve_lookup].
  unfold lift. by destruct (list_comp _ _).
Qed.

End cell_facts.

(** ** More on the word index and on showing a review *)

Section more_word_index_facts.
Import PyDict PyDictFacts.
Implicit Types (wi d : list (string * Z)) (k w : string) (v i : Z).

(** With no marker among the library's words the three item assignments
    add three entries at the end. *)
Lemma word_to_index_app wi :
  wf wi → (∀ k, k ∈ special_words → get wi k = None) →
  word_to_index wi =
  ((λ kv, (kv.1, (kv.2 + 3)%Z)) <$> wi)
  ++ [("<PAD>", 0%Z); ("<START>", 1%Z); ("<UNK>", 2%Z)].
Proof.
  intros Hwf Hsp. unfold word_to_index.
  assert (∀ k, k ∈ special_words → k ∉ (shifted_index wi).*1) as Hfresh.
  { intros k Hk. apply get_None. by rewrite get_shifted_index, Hsp. }
  assert (∀ k, k ∈ special_words ↔ k = "<PAD>" ∨ k = "<START>" ∨ k = "<UNK>")
    as Hin.
  { intros k. unfold special_words. rewrite !elem_of_cons, elem_of_nil. tauto. }
  rewrite (setitem_new (shifted_index wi)) by (apply Hfresh, Hin; tauto).
  rewrite (setitem_new (shifted_index wi ++ [("<PAD>", 0%Z)])).
  2:{ rewrite fmap_app, not_elem_of_app. split; [apply Hfresh, Hin; tauto|].
      simpl. rewrite !elem_of_cons, elem_of_nil. intros [?|[]]. done. }
  rewrite (setitem_new ((shifted_index wi ++ [("<PAD>", 0%Z)]) ++ [("<START>", 1%Z)])).
  2:{ rewrite !fmap_app, !not_elem_of_app. split_and!; [apply Hfresh, Hin; tauto|..];
      simpl; rewrite !elem_of_cons, elem_of_nil; intros [?|[]]; done. }
  rewrite shifted_index_fmap by done. by rewrite <- !app_assoc.
Qed.

(** A comprehension has at most one entry for each pair it is given. *)
Lemma length_setitem_le {K V} `{EqDecision K} (kvs : list (K * V)) (key : K) (val : V) :
  length (setitem key val kvs) ≤ S (length kvs).
Proof.
  induction kvs as [|[k' v'] kvs IH]; simpl; [done|].
  destruct (decide (k' = key)); simpl; lia.
Qed.

Lemma length_update_le {K V} `{EqDecision K} (acc kvs : list (K * V)) :
  length (update acc kvs) ≤ length acc + length kvs.
Proof.
  unfold update. revert acc.
  induction kvs as [|[key val] kvs IH]; simpl; intros acc; [lia|].
  etrans; [apply IH|]. pose proof (length_setitem_le acc key val). simpl. lia.
Qed.

Lemma length_inverted_le d : length (inverted d) ≤ length d.
Proof.
  unfold inverted, of_items. etrans; [apply length_update_le|].
  simpl. by rewrite length_fmap.
Qed.

(** Distinct ids on distinct words: the values of the dict do not repeat. *)
Lemma distinct_ids_NoDup d : wf d → distinct_ids d → NoDup d.*2.
Proof.
  intros Hwf Hinj. apply NoDup_fmap_2_strong; [|by eapply NoDup_fmap_1].
  intros [k1 v1] [k2 v2] H1 H2. simpl. intros <-.
  f_equal. apply (Hinj k1 k2 v1); by apply elem_get_Some.
Qed.

(** The inverse of a dict with distinct ids has its entries turned round,
    in the same order. *)
Lemma inverted_distinct d :
  wf d → distinct_ids d → inverted d = (λ kv, (kv.2, kv.1)) <$> d.
Proof.
  intros Hwf Hinj. unfold inverted. apply of_items_distinct.
  unfold wf. rewrite <- list_fmap_compose. by apply distinct_ids_NoDup.
Qed.

(** Decoding a row word by word. *)
Lemma list_comp_getitem (i2w : list (Z * string)) (row : list Z) (ws : list string) :
  Forall2 (λ t word, get i2w t = Some word) row ws →
  list_comp (getitem i2w) row = Ok ws.
Proof.
  induction 1 as [|t word row ws Ht _ IH]; [done|].
  assert (getitem i2w t = Ok word) as Hword by (unfold getitem; by rewrite Ht).
  change (list_comp (getitem i2w) (t :: row))
    with (getitem i2w t ≫= λ y, list_comp (getitem i2w) row ≫= λ ys, Ok (y :: ys)).
  by rewrite Hword, IH.
Qed.

(** The comprehension raises the exception of the first element that
    raises, and only that. *)
Lemma list_comp_outcome {A B} (f : A → result B) (xs : list A) :
  match list_comp f xs with
  | Ok ys => Forall2 (λ a b, f a = Ok b) xs ys
  | Raise e => ∃ a, a ∈ xs ∧ f a = Raise e
  end.
Proof.
  induction xs as [|a xs IH]; simpl; [constructor|].
  destruct (f a) as [b|e] eqn:Hfa; simpl.
  - destruct (list_comp f xs) as [ys|e]; simpl.
    + by constructor.
    + destruct IH as (a' & Hin & Ha'). exists a'. split; [|done].
      by apply list_elem_of_further.
  - exists a. split; [apply list_elem_of_here|done].
Qed.

Lemma getitem_seq_outcome {A} (x : list A) (I : Z) :
  match getitem_seq x I with
  | Ok row => valid_index x I ∧ row ∈ x
  | Raise e => e = IndexError ∧ ¬ valid_index x I
  end.
Proof.
  destruct (decide (valid_index x I)) as [Hv|Hv].
  - destruct (getitem_seq_valid x I Hv) as (row & -> & Hin). done.
  - unfold getitem_seq, valid_index in *.
    set (j := if (I <? 0)%Z then (I + Z.of_nat (length x))%Z else I).
    assert (¬ (0 ≤ j < Z.of_nat (length x))%Z) as Hj
      by (unfold j; destruct (Z.ltb_spec I 0); lia).
    destruct (Z.leb_spec 0 j); simpl; [|done].
    destruct (Z.ltb_spec j (Z.of_nat (length x))); simpl; [lia|done].
Qed.

(** A non-negative index and the same index counted from the end give the
    same row. *)
Lemma getitem_seq_negative {A} (x : list A) (I : Z) :
  (0 ≤ I < Z.of_nat (length x))%Z →
  getitem_seq x (I - Z.of_nat (length x)) = getitem_seq x I.
Proof.
  intros HI. unfold getitem_seq.
  destruct (Z.ltb_spec (I - Z.of_nat (length x)) 0); [|lia].
  destruct (Z.ltb_spec I 0); [lia|].
  by replace (I - Z.of_nat (length x) + Z.of_nat (length x))%Z with I by lia.
Qed.

End more_word_index_facts.

(** ** More on the cells *)

Section more_cell_facts.
Import PyDict PyDictFacts.
Implicit Types (σ : kernel) (g : list (string * nat)) (h : list obj)
  (out : list string) (imdb : library).

(** The objects a cell has made come after the ones that were there. *)
Lemma lookup_new h (new : list obj) (n : nat) :
  (h ++ new) !! (length h + n) = new !! n.
Proof. rewrite lookup_app_r by lia. f_equal. lia. Qed.

Lemma getitem_seq_fmap {A B} (f : A → B) (x : list A) (I : Z) :
  getitem_seq (f <$> x) I =
  match getitem_seq x I with Ok a => Ok (f a) | Raise e => Raise e end.
Proof.
  unfold getitem_seq. rewrite length_fmap, list_lookup_fmap.
  destruct (_ && _); [|done]. by destruct (x !! _).
Qed.

(** An index that is not negative is the place in the list. *)
Lemma getitem_seq_lookup {A} (x : list A) (n : nat) :
  getitem_seq x (Z.of_nat n) =
  match x !! n with Some a => Ok a | None => Raise IndexError end.
Proof.
  unfold getitem_seq. destruct (Z.ltb_spec (Z.of_nat n) 0); [lia|].
  rewrite Nat2Z.id. destruct (Z.leb_spec 0 (Z.of_nat n)); [|lia]. simpl.
  destruct (Z.ltb_spec (Z.of_nat n) (Z.of_nat (length x))); [done|].
  by rewrite lookup_ge_None_2 by lia.
Qed.

Lemma read_unbound name g h out :
  get g name = None → read name (Kernel g h out) = (Raise NameError, Kernel g h out).
Proof.
  intros Hg. unfold read, name_lookup, mbind, M_bind. simpl. by rewrite Hg.
Qed.

Lemma read_seqs_unbound name g h out :
  get g name = None →
  read_seqs name (Kernel g h out) = (Raise NameError, Kernel g h out).
Proof.
  intros Hg. unfold read_seqs. by erewrite bind_raise by by apply read_unbound.
Qed.

(** Showing a review is defined on the tokens the loader can give. *)
Lemma show_review_defined (wi : list (string * Z)) (x : list (list Z)) (I : Z) :
  wf wi → (∀ k, k ∈ special_words → get wi k = None) →
  loaded_tokens wi x → valid_index x I →
  ∃ s, show_review (index_to_word wi) x I = Ok s.
Proof.
  intros Hwf Hsp Htok Hi.
  destruct (getitem_seq_valid x I Hi) as (row & Hrow & Hin).
  unfold show_review. rewrite Hrow. simpl.
  destruct (list_comp_total (getitem (index_to_word wi)) row) as [ws Hws].
  { intros t Ht. destruct (loaded_token_known wi t Hwf Hsp) as [word Hword].
    - by eapply Htok.
    - exists word. unfold getitem. by rewrite Hword. }
  rewrite Hws. simpl. by eexists.
Qed.

(** Cell 6 binds [I_SHOW] to a new object and nothing else; its value is
    what [show_review] gives for row 4. *)
Lemma cell_show_review_state g h out l1 l2 x i2w :
  get g "x_train" = Some l1 → h !! l1 = Some (OSeqs x) →
  get g "index_to_word" = Some l2 → h !! l2 = Some (ODictIS i2w) →
  cell_show_review (Kernel g h out) =
  (show_review i2w x 4, Kernel (setitem "I_SHOW" (length h) g) (h ++ [OInt 4]) out).
Proof.
  intros Hg1 Hl1 Hg2 Hl2. unfold cell_show_review, show_review.
  erewrite bind_ok by reflexivity. cbv beta. cbn [globals heap stdout].
  erewrite bind_ok; cycle 1.
  { eapply read_seqs_run; [by rewrite get_setitem_ne|by apply lookup_snoc_old]. }
  erewrite bind_ok; cycle 1.
  { eapply read_int_run; [apply get_setitem_eq|apply lookup_snoc_here]. }
  cbv beta. unfold lift at 1, mbind at 1, M_bind at 1.
  destruct (getitem_seq x 4) as [row|e]; simpl; [|done].
  destruct row as [|t row]; [done|].
  unfold mbind, M_bind.
  erewrite read_dict_is_run;
    [|by rewrite get_setitem_ne|by apply lookup_snoc_old].
  unfold lift. by destruct (list_comp _ _).
Qed.

(** Cell 4 reads [x_train] and changes nothing. *)
Lemma cell_peek_run g h out l x :
  get g "x_train" = Some l → h !! l = Some (OSeqs x) →
  cell_peek (Kernel g h out) = (Ok (take 3 x), Kernel g h out).
Proof.
  intros Hg Hl. unfold cell_peek.
  erewrite bind_ok by by eapply read_seqs_run.
  unfold slice_upto, slice_bound. simpl.
  destruct (Z.min_spec 3 (Z.of_nat (length x))) as [[? ->]|[? ->]]; [done|].
  rewrite Nat2Z.id. by rewrite (take_ge x 3), firstn_all by lia.
Qed.

(** Cell 9 on an array. *)
Lemma cell_show_row_run g h out l n rows :
  get g "X_train" = Some l → h !! l = Some (OArray n rows) →
  cell_show_row (Kernel g h out) =
  (getitem_seq rows 3,
   Kernel g h
     (out ++ ["Size of X_train: (" +:+ pretty (length rows) +:+ ", "
              +:+ pretty n +:+ ")"])).
Proof.
  intros Hg Hl. unfold cell_show_row.
  erewrite bind_ok by by eapply read_run.
  erewrite bind_ok by reflexivity.
  erewrite bind_ok by reflexivity. cbv beta. cbn [globals heap stdout].
  erewrite bind_ok by by eapply read_run.
  reflexivity.
Qed.

Lemma frames_read_seqs names name : frames names (read_seqs name).
Proof.
  apply frames_bind; [apply frames_read|].
  intros []; first [apply frames_ret | apply frames_raise].
Qed.

Lemma frames_read_dict_is names name : frames names (read_dict_is name).
Proof.
  apply frames_bind; [apply frames_read|].
  intros []; first [apply frames_ret | apply frames_raise].
Qed.

End more_cell_facts.

(** ** The model at work *)

Section examples.
Import PyDict.

Example word_to_index_small :
  word_to_index [("the", 1%Z); ("and", 2%Z); ("a", 3%Z)] =
  [("the", 4%Z); ("and", 5%Z); ("a", 6%Z);
   ("<PAD>", 0%Z); ("<START>", 1%Z); ("<UNK>", 2%Z)].
Proof. reflexivity. Qed.

Example index_to_word_small :
  index_to_word [("the", 1%Z); ("and", 2%Z); ("a", 3%Z)] =
  [(4%Z, "the"); (5%Z, "and"); (6%Z, "a");
   (0%Z, "<PAD>"); (1%Z, "<START>"); (2%Z, "<UNK>")].
Proof. reflexivity. Qed.

Example show_review_small :
  show_review (index_to_word [("the", 1%Z); ("and", 2%Z); ("a", 3%Z)])
    [[1; 4; 5; 6]%Z; [1; 2; 5]%Z] (-1) = Ok "<START> <UNK> and".
Proof. reflexivity. Qed.

Example show_review_out_of_range :
  show_review (index_to_word [("the", 1%Z)]) [[1; 4]%Z] 4 = Raise IndexError.
Proof. reflexivity. Qed.

Example pad_sequences_small :
  pad_sequences [[1; 2; 3]%Z; []; [5%Z]] 2 = Ok [[2; 3]%Z; [0; 0]%Z; [0; 5]%Z].
Proof. reflexivity. Qed.

Example pad_sequences_post_small :
  pad_sequences_with 2 post post 7 [[1; 2; 3]%Z; []; [5%Z]] =
  Ok [[1; 2]%Z; [7; 7]%Z; [5; 7]%Z].
Proof. reflexivity. Qed.

(** With [maxlen=0] the slice [s[-0:]] is the whole sequence, which does
    not fit a row of no cells. *)
Example pad_sequences_maxlen_0 :
  pad_sequences [[1; 2; 3]%Z] 0 = Raise ValueError.
Proof. reflexivity. Qed.

(** The four cells on the small library: the names they bind and what they
    print.  Row 4 does not exist, so cell 6 stops the run. *)
Example data_cells_small :
  (data_cells small_imdb (Kernel [] [] [])).1 = Raise IndexError.
Proof. vm_compute. reflexivity. Qed.

Example load_then_pad_small :
  stdout ((cell_load_data small_imdb;; cell_word_index small_imdb;; cell_pad)
            (Kernel [] [] [])).2 =
  ["Loading data..."; "2 train sequences"; "1 test sequences";
   "Size of X_train (2, 80)"; "Size of X_test (1, 80)"].
Proof. vm_compute. reflexivity. Qed.

Example data_cells_offline :
  data_cells offline_imdb (Kernel [] [] []) =
  (Raise (LibraryError "download failed"),
   Kernel [("NUM_WORDS", 0)] [OInt 20000] []).
Proof. vm_compute. reflexivity. Qed.

(** Reading a source line: the string and the comment are no words, and
    the names before an opening parenthesis are the calls. *)
Example words_of_line :
  words_of (Code ["print('Size of X_train', X_train.shape)  # if any"]) =
  ["print"; "X_train"; "shape"].
Proof. reflexivity. Qed.

Example calls_of_pad_cell :
  (λ c, called (cell_tokens c)) <$> notebook !! 16 =
  Some ["pad_sequences"; "pad_sequences"; "print"; "print"].
Proof. reflexivity. Qed.

Example for_in_brackets :
  filter (λ t, t.1 = Word "for") (notebook ≫= cell_tokens) =
  [(Word "for", 1); (Word "for", 1); (Word "for", 2); (Word "for", 1)].
Proof. vm_compute. reflexivity. Qed.

(** Two names for one dict: an item assignment through one name shows
    through the other.  Cell 5 makes a new dict with its comprehension
    instead. *)
Example item_assignment_aliases :
  heap ((l ← alloc (ODictSI [("the", 1%Z)]);
         assign "word_index" l;;
         assign "word_to_index" l;;
         dict_setitem "word_to_index" "<PAD>" 0) (Kernel [] [] [])).2 =
  [ODictSI [("the", 1%Z); ("<PAD>", 0%Z)]].
Proof. reflexivity. Qed.

(** Before cell 3 has run, cell 7 finds no [x_train]. *)
Example cell_pad_unbound :
  (cell_pad (Kernel [] [] [])).1 = Raise NameError.
Proof. vm_compute. reflexivity. Qed.

End examples.

(** * The claims *)

(** ** The word index *)

Section word_index_claims.
Import PyDict PyDictFacts.

(** A concrete list of pairs has distinct keys. *)
Ltac wf_done :=
  unfold wf; apply (bool_decide_unpack _); vm_compute; exact I.

(** C2. The notebook puts three markers on top of the library's word index:
    every library index [v] is shifted to [v + 3], then ["<PAD>"] gets id 0,
    ["<START>"] id 1 and ["<UNK>"] id 2; the keys of [word_to_index] are
    the library's words and these three; and when every library index is at
    least 1, no shifted id is one of 0, 1, 2, so that in [word_to_index] only
    the markers have these ids. *)
Theorem word_to_index_markers (word_index : list (string * Z)) :
  wf word_index →
  (∀ k v, get word_index k = Some v → (1 ≤ v)%Z) →
  (∀ k v, get word_index k = Some v →
          get (shifted_index word_index) k = Some (v + 3)%Z)
  ∧ get (word_to_index word_index) "<PAD>" = Some 0%Z
  ∧ get (word_to_index word_index) "<START>" = Some 1%Z
  ∧ get (word_to_index word_index) "<UNK>" = Some 2%Z
  ∧ (∀ k, k ∉ special_words →
          get (word_to_index word_index) k = (λ v, (v + 3)%Z) <$> get word_index k)
  ∧ (∀ k, is_Some (get (word_to_index word_index) k) ↔
          is_Some (get word_index k) ∨ k ∈ special_words)
  ∧ (∀ k v, get word_index k = Some v → (v + 3)%Z ∉ [0; 1; 2]%Z)
  ∧ (∀ k i, k ∉ special_words →
            get (word_to_index word_index) k = Some i → i ∉ [0; 1; 2]%Z).
Proof.
  intros Hwf Hpos.
  assert (∀ k v, get word_index k = Some v → (v + 3)%Z ∉ [0; 1; 2]%Z) as Hfree.
  { intros k v Hk%Hpos. apply reserved_cases. lia. }
  split_and!.
  - intros k v Hk. by rewrite get_shifted_index, Hk.
  - unfold word_to_index. by rewrite get_word_to_index.
  - unfold word_to_index. by rewrite get_word_to_index.
  - unfold word_to_index. by rewrite get_word_to_index.
  - intros k Hk. by rewrite get_word_to_index_other, get_shifted_index.
  - intros k. destruct (decide (k ∈ special_words)) as [Hin|Hnin].
    + split; [by right|]. intros _. unfold special_words in Hin.
      rewrite !elem_of_cons in Hin. unfold word_to_index.
      rewrite get_word_to_index.
      destruct Hin as [->|[->|[->|Hin]]]; [done..|by apply elem_of_nil in Hin].
    + rewrite get_word_to_index_other, get_shifted_index, fmap_is_Some by done.
      split; [by left|]. by intros [?|?].
  - done.
  - intros k i Hk. rewrite get_word_to_index_other, get_shifted_index by done.
    destruct (get word_index k) as [v|] eqn:E; simpl; [|done].
    intros [= <-]. by apply (Hfree k).
Qed.

Lemma word_to_index_markers_witness :
  get (word_to_index [("the", 1%Z); ("and", 2%Z)]) "<PAD>" = Some 0%Z
  ∧ get (shifted_index [("the", 1%Z); ("and", 2%Z)]) "and" = Some 5%Z.
Proof.
  assert (wf [("the", 1%Z); ("and", 2%Z)]) as Hwf by (wf_done).
  assert (∀ k v, get [("the", 1%Z); ("and", 2%Z)] k = Some v → (1 ≤ v)%Z) as Hpos.
  { intros k v. simpl. repeat case_decide; intros [= <-]; lia. }
  pose proof (word_to_index_markers _ Hwf Hpos) as (Hshift & Hpad & _).
  split; [exact Hpad | exact (Hshift "and" 2%Z eq_refl)].
Defined.

(** C5, as amended.  When no marker is itself a word of the library's index,
    every token id the loader can give (0, 1, 2, or the rank of a library
    word plus 3) is a key of [index_to_word], and showing the review at any
    valid row index gives a string: no [KeyError], no [IndexError]. *)
Theorem show_review_total (word_index : list (string * Z))
    (x : list (list Z)) (I_SHOW : Z) :
  wf word_index →
  (∀ k, k ∈ special_words → get word_index k = None) →
  loaded_tokens word_index x →
  valid_index x I_SHOW →
  (∀ row w, row ∈ x → w ∈ row → is_Some (get (index_to_word word_index) w))
  ∧ ∃ s, show_review (index_to_word word_index) x I_SHOW = Ok s.
Proof.
  intros Hwf Hsp Htok Hi.
  assert (∀ row w, row ∈ x → w ∈ row →
                   is_Some (get (index_to_word word_index) w)) as Hknown.
  { intros row w Hrow Hw. apply loaded_token_known; [done..|]. by eapply Htok. }
  split; [done|].
  destruct (getitem_seq_valid x I_SHOW Hi) as (row & Hrow & Hin).
  unfold show_review. rewrite Hrow. simpl.
  destruct (list_comp_total (getitem (index_to_word word_index)) row) as [ws Hws].
  { intros w Hw. destruct (Hknown row w Hin Hw) as [s Hs].
    exists s. unfold getitem. by rewrite Hs. }
  rewrite Hws. simpl. by eexists.
Qed.

Lemma show_review_total_witness :
  ∃ s, show_review (index_to_word [("the", 1%Z); ("and", 2%Z)])
         [[1; 4; 5]%Z; [1; 2; 0]%Z] (-1) = Ok s.
Proof.
  refine (proj2 (show_review_total [("the", 1%Z); ("and", 2%Z)]
                   [[1; 4; 5]%Z; [1; 2; 0]%Z] (-1) _ _ _ _)).
  - wf_done.
  - intros k Hk. unfold special_words in Hk. rewrite !elem_of_cons in Hk.
    destruct Hk as [->|[->|[->|Hk]]]; [done..|by apply elem_of_nil in Hk].
  - intros row w Hrow Hw. rewrite !elem_of_cons in Hrow.
    destruct Hrow as [->|[->|Hrow]]; [| |by apply elem_of_nil in Hrow];
      rewrite !elem_of_cons in Hw.
    + destruct Hw as [->|[->|[->|Hw]]]; [| | |by apply elem_of_nil in Hw].
      * left. rewrite !elem_of_cons. tauto.
      * right. by exists "the", 1%Z.
      * right. by exists "and", 2%Z.
    + left. rewrite !elem_of_cons in *. tauto.
  - unfold valid_index. simpl. lia.
Defined.

(** C5, as stated, fails when a marker is a word of the library: with
    ["<PAD>"] at rank 1 the token 4 is a rank plus 3, yet the marker's
    entry was overwritten with id 0 and 4 is no key of [index_to_word]. *)
Lemma show_review_marker_in_library :
  wf [("<PAD>", 1%Z)]
  ∧ loaded_tokens [("<PAD>", 1%Z)] [[4%Z]]
  ∧ valid_index [[4%Z]] 0
  ∧ get (index_to_word [("<PAD>", 1%Z)]) 4%Z = None
  ∧ show_review (index_to_word [("<PAD>", 1%Z)]) [[4%Z]] 0 = Raise KeyError.
Proof.
  split_and!.
  - wf_done.
  - intros row w Hrow Hw. rewrite !elem_of_cons in Hrow.
    destruct Hrow as [->|Hrow]; [|by apply elem_of_nil in Hrow].
    rewrite !elem_of_cons in Hw.
    destruct Hw as [->|Hw]; [|by apply elem_of_nil in Hw].
    right. by exists "<PAD>", 1%Z.
  - unfold valid_index. simpl. lia.
  - reflexivity.
  - reflexivity.
Qed.

(** C6, as amended.  [index_to_word] is the inverse of [word_to_index]
    when the library gives distinct ids to distinct words and shifts no
    word onto a marker's id (no library id is -3, -2 or -1): looking up a
    word and then its id gives the word back, and the other way round, the
    three markers included. *)
Theorem index_to_word_inverse (word_index : list (string * Z)) :
  wf word_index →
  distinct_ids word_index →
  (∀ k v, get word_index k = Some v → (v + 3)%Z ∉ [0; 1; 2]%Z) →
  round_trip word_index.
Proof.
  intros Hwf Hinj Hfree. split.
  - intros w i Hw. unfold index_to_word.
    apply inverted_round_trip;
      [apply wf_word_to_index | by apply word_to_index_distinct | done].
  - intros i w Hi. unfold index_to_word in Hi.
    apply get_inverted in Hi; [done | apply wf_word_to_index].
Qed.

Lemma index_to_word_inverse_witness :
  get (index_to_word [("the", 1%Z); ("and", 2%Z)]) 5%Z = Some "and"
  ∧ get (word_to_index [("the", 1%Z); ("and", 2%Z)]) "<START>" = Some 1%Z.
Proof.
  assert (round_trip [("the", 1%Z); ("and", 2%Z)]) as [Hto Hfrom].
  { apply index_to_word_inverse.
    - wf_done.
    - intros k1 k2 v. simpl. repeat case_decide; congruence.
    - intros k v. simpl. repeat case_decide; intros [= <-];
        rewrite !elem_of_cons, elem_of_nil; lia. }
  split; [by apply Hto | by apply Hfrom].
Defined.

(** C6, as stated, fails for a library id that is shifted onto a marker's
    id: the one word ["a"] with id -3 gets id 0, which [index_to_word]
    gives to ["<PAD>"]. *)
Lemma index_to_word_not_inverse :
  wf [("a", (-3)%Z)]
  ∧ distinct_ids [("a", (-3)%Z)]
  ∧ get (word_to_index [("a", (-3)%Z)]) "a" = Some 0%Z
  ∧ get (index_to_word [("a", (-3)%Z)]) 0%Z = Some "<PAD>"
  ∧ ¬ round_trip [("a", (-3)%Z)].
Proof.
  split_and!.
  - wf_done.
  - intros k1 k2 v. simpl. repeat case_decide; congruence.
  - reflexivity.
  - reflexivity.
  - intros [Hto _]. specialize (Hto "a" 0%Z eq_refl). discriminate Hto.
Qed.

End word_index_claims.

(** ** Padding *)

(** C1. Whatever the lengths of the reviews, [sequence.pad_sequences(x,
    maxlen=80)] returns, and gives one row of exactly 80 tokens for each
    review of [x]: the rows of [X_train] and [X_test] all have length 80. *)
Theorem pad_sequences_fixed_length (x : list (list Z)) :
  ∃ X, pad_sequences x MAXLEN = Ok X
       ∧ length X = length x
       ∧ Forall (λ row, length row = 80) X.
Proof.
  exists (pre_padded MAXLEN <$> x). split_and!.
  - apply pad_sequences_pre. unfold MAXLEN. lia.
  - apply length_fmap.
  - apply Forall_fmap, Forall_forall. intros s _. apply length_pre_padded.
Qed.

(** C4. With the defaults [truncating='pre'] and [padding='pre'], the row
    of a review longer than 80 tokens is its last 80 tokens, the tokens
    before them are dropped; the row of a review shorter than 80 tokens is
    the review with zeros in front; a review of 80 tokens is its own row. *)
Theorem pad_sequences_keeps_tail (x : list (list Z)) (i : nat) (s : list Z) :
  x !! i = Some s →
  ∃ X row,
    pad_sequences x MAXLEN = Ok X ∧ X !! i = Some row
    ∧ (MAXLEN < length s →
       row = drop (length s - MAXLEN) s
       ∧ take (length s - MAXLEN) s ++ row = s)
    ∧ (length s < MAXLEN → row = replicate (MAXLEN - length s) 0%Z ++ s)
    ∧ (length s = MAXLEN → row = s).
Proof.
  intros Hs. exists (pre_padded MAXLEN <$> x), (pre_padded MAXLEN s). split_and!.
  - apply pad_sequences_pre. unfold MAXLEN. lia.
  - by rewrite list_lookup_fmap, Hs.
  - intros Hlong. unfold pre_padded.
    replace (MAXLEN - length s) with 0 by lia. simpl. split; [done|].
    apply take_drop.
  - intros Hshort. unfold pre_padded.
    replace (length s - MAXLEN) with 0 by lia. by rewrite drop_0.
  - intros Heq. unfold pre_padded. by rewrite Heq, Nat.sub_diag.
Qed.

Lemma pad_sequences_keeps_tail_witness :
  ∃ X row,
    pad_sequences [seqZ 1 81; [7; 8]%Z] MAXLEN = Ok X ∧ X !! 0 = Some row
    ∧ (MAXLEN < length (seqZ 1 81) →
       row = drop (length (seqZ 1 81) - MAXLEN) (seqZ 1 81)
       ∧ take (length (seqZ 1 81) - MAXLEN) (seqZ 1 81) ++ row = seqZ 1 81)
    ∧ (length (seqZ 1 81) < MAXLEN →
       row = replicate (MAXLEN - length (seqZ 1 81)) 0%Z ++ seqZ 1 81)
    ∧ (length (seqZ 1 81) = MAXLEN → row = seqZ 1 81).
Proof.
  exact (pad_sequences_keeps_tail [seqZ 1 81; [7; 8]%Z] 0 (seqZ 1 81) eq_refl).
Defined.

(** The review of the tokens 1 to 81 keeps 2 to 81: the first token goes,
    not the last. *)
Example pad_sequences_drops_head :
  pad_sequences [seqZ 1 81] MAXLEN = Ok [seqZ 2 80].
Proof. vm_compute. reflexivity. Qed.

(** ** The cells and the kernel *)

Section kernel_claims.
Import PyDict PyDictFacts.

(** C7. Padding leaves its inputs as they are: after cell 7 every object
    that was there is unchanged and [x_train], [y_train], [x_test] and
    [y_test] are bound to the objects they were bound to.  Building
    [word_to_index] and [index_to_word] changes no object that was there,
    and at the end of cell 5 [word_index] is still bound to the dict the
    library gave, with the library's entries. *)
Theorem cells_keep_their_inputs (imdb : library) (σ : kernel) :
  (∀ l o, heap σ !! l = Some o → heap (cell_pad σ).2 !! l = Some o)
  ∧ (∀ name l o, name ∈ input_names →
       get (globals σ) name = Some l → heap σ !! l = Some o →
       get (globals (cell_pad σ).2) name = Some l
       ∧ heap (cell_pad σ).2 !! l = Some o)
  ∧ (∀ l o, heap σ !! l = Some o →
            heap (cell_word_index imdb σ).2 !! l = Some o)
  ∧ (∀ raw, get_word_index imdb = Ok raw →
       ∃ l, get (globals (cell_word_index imdb σ).2) "word_index" = Some l
            ∧ heap (cell_word_index imdb σ).2 !! l = Some (ODictSI (of_items raw))).
Proof.
  destruct (frames_cell_pad σ) as [[k Hk] Hnames].
  assert (∀ l o, heap σ !! l = Some o → heap (cell_pad σ).2 !! l = Some o) as Hpad.
  { intros l o Hl. rewrite Hk. by apply lookup_app_l_Some. }
  split_and!.
  - done.
  - intros name l o Hin Hg Hl. split; [|by apply Hpad].
    rewrite Hnames; [done|]. unfold input_names in Hin.
    rewrite !elem_of_cons, elem_of_nil in Hin.
    rewrite !not_elem_of_cons. split_and!; [..|apply not_elem_of_nil];
      intros ->; destruct Hin as [?|[?|[?|[?|[]]]]]; discriminate.
  - intros l o Hl. destruct σ as [g h out]. simpl in Hl.
    destruct (get_word_index imdb) as [raw|e] eqn:Hraw.
    + rewrite (cell_word_index_run _ _ _ _ _ Hraw). simpl.
      by apply lookup_app_l_Some.
    + rewrite (cell_word_index_raise _ _ _ _ _ Hraw). simpl.
      by apply lookup_app_l_Some.
  - intros raw Hraw. destruct σ as [g h out].
    rewrite (cell_word_index_run _ _ _ _ _ Hraw). simpl.
    exists (length h + 1). split.
    + rewrite !get_setitem_ne by done. apply get_setitem_eq.
    + by rewrite lookup_app_r, Nat.add_sub' by lia.
Qed.

(** C10. No code cell has a keyword of exception handling, and an
    exception of a library call comes out of the cell, and out of the run
    of the cells, as the library raised it; in any sequence of steps an
    exception of the first step is the outcome of the sequence. *)
Theorem library_errors_come_out (imdb : library) (σ : kernel) (e : exn) :
  Forall unhandled notebook
  ∧ (load_data imdb NUM_WORDS = Raise e →
     (cell_load_data imdb σ).1 = Raise e ∧ (data_cells imdb σ).1 = Raise e)
  ∧ (get_word_index imdb = Raise e →
     (cell_word_index imdb σ).1 = Raise e
     ∧ ∀ d, load_data imdb NUM_WORDS = Ok d → (data_cells imdb σ).1 = Raise e)
  ∧ (∀ A B (m : M A) (f : A → M B),
       (m σ).1 = Raise e → (m ≫= f) σ = (Raise e, (m σ).2)).
Proof.
  destruct σ as [g h out]. split_and!.
  - unfold unhandled. apply (bool_decide_unpack _). vm_compute. exact I.
  - intros Hload. pose proof (cell_load_data_raise imdb g h out e Hload) as Hcell.
    split; [by rewrite Hcell|].
    unfold data_cells. by erewrite bind_raise by exact Hcell.
  - intros Hraw. split.
    + by rewrite (cell_word_index_raise _ _ _ _ _ Hraw).
    + intros [[xtr ytr] [xte yte]] Hload. unfold data_cells.
      erewrite bind_ok by exact (cell_load_data_run _ g h out _ _ _ _ Hload).
      by erewrite bind_raise by exact (cell_word_index_raise _ _ _ _ _ Hraw).
  - intros A B m f Hm. apply bind_raise.
    destruct (m (Kernel g h out)) as [r σ']. simpl in *. by subst.
Qed.

End kernel_claims.

(** ** The notebook as a document *)

(** C3, as amended.  The code of the notebook has one call that loads the
    data and two calls that pad; the cell of the model exercise has the
    three import lines and nothing else, and nowhere in the notebook is a
    model made, compiled or fitted or a callback made: these are left to
    the learner. *)
Theorem model_cell_imports_only :
  count_calls "load_data" notebook = 1
  ∧ count_calls "pad_sequences" notebook = 2
  ∧ (∃ source,
       cell_after model_exercise notebook = Some (Code source)
       ∧ forallb import_line source = true
       ∧ called (source_tokens source) = []
       ∧ Forall (λ name, name ∈ words_of (Code source))
           ["EarlyStopping"; "ModelCheckpoint"; "Sequential";
            "Dense"; "Embedding"; "LSTM"])
  ∧ Forall (λ f, count_calls f notebook = 0) model_calls.
Proof.
  split_and!.
  - vm_compute. reflexivity.
  - vm_compute. reflexivity.
  - eexists. split; [reflexivity|]. split_and!.
    + vm_compute. reflexivity.
    + vm_compute. reflexivity.
    + apply (bool_decide_unpack _). vm_compute. exact I.
  - apply (bool_decide_unpack _). vm_compute. exact I.
Qed.

(** C3, as stated, fails: the notebook calls neither [Sequential] nor [fit],
    and makes neither of the two callbacks. *)
Lemma no_model_assembly_or_fit :
  count_calls "Sequential" notebook = 0
  ∧ count_calls "fit" notebook = 0
  ∧ count_calls "ModelCheckpoint" notebook = 0
  ∧ count_calls "EarlyStopping" notebook = 0
  ∧ "fit" ∉ notebook ≫= words_of.
Proof.
  split_and!; try (vm_compute; reflexivity).
  apply (bool_decide_unpack _). vm_compute. exact I.
Qed.

(** C8. None of the four follow-up exercises is implemented: the cell under
    each of the four headings is a code cell with no source, and these four
    empty cells are all the code there is after the heading of section 5. *)
Theorem follow_up_exercises_empty :
  Forall (λ heading, cell_after heading notebook = Some (Code [])) follow_up_exercises
  ∧ code_cells (cells_after "# 5 Going deeper" notebook) = [[]; []; []; []].
Proof.
  split.
  - unfold follow_up_exercises. repeat constructor.
  - reflexivity.
Qed.

(** C9. The code of the notebook is straight-line: no cell has a keyword of
    a branch ([if], [elif], [else], [match]) or of a loop ([while], [break],
    [continue]), and every [for] stands inside brackets, that is in a
    comprehension. *)
Theorem notebook_straight_line : Forall straight_line notebook.
Proof.
  unfold straight_line. apply (bool_decide_unpack _). vm_compute. exact I.
Qed.

(** * Further properties of the notebook's code *)

(** ** The word index and the decoding of a review *)

Section word_index_extras.
Import PyDict PyDictFacts.

Ltac wf_done :=
  unfold wf; apply (bool_decide_unpack _); vm_compute; exact I.

Ltac no_marker_done :=
  let k := fresh "k" in let Hk := fresh "Hk" in
  intros k Hk; unfold special_words in Hk; rewrite !elem_of_cons in Hk;
  destruct Hk as [->|[->|[->|Hk]]]; [done..|by apply elem_of_nil in Hk].

(** X1. When none of the three markers is a word of the library,
    [word_to_index] lists the library's words in the library's order, each
    with its id plus 3, and then ["<PAD>"], ["<START>"], ["<UNK>"] with the
    ids 0, 1, 2: it has three entries more than the library's index. *)
Theorem word_to_index_layout (word_index : list (string * Z)) :
  wf word_index →
  (∀ k, k ∈ special_words → get word_index k = None) →
  word_to_index word_index =
    ((λ kv, (kv.1, (kv.2 + 3)%Z)) <$> word_index)
    ++ [("<PAD>", 0%Z); ("<START>", 1%Z); ("<UNK>", 2%Z)]
  ∧ length (word_to_index word_index) = length word_index + 3.
Proof.
  intros Hwf Hsp. rewrite word_to_index_app by done. split; [done|].
  by rewrite length_app, length_fmap.
Qed.

Lemma word_to_index_layout_witness :
  length (word_to_index [("the", 1%Z); ("and", 2%Z)]) = 2 + 3.
Proof.
  refine (proj2 (word_to_index_layout [("the", 1%Z); ("and", 2%Z)] _ _)).
  - wf_done.
  - no_marker_done.
Defined.

(** X2. When none of the three markers is a word of the library, the ids
    0, 1 and 2 decode to ["<PAD>"], ["<START>"] and ["<UNK>"] whatever ids
    the library gives, also when a library word is shifted onto 0, 1 or 2:
    the markers come last in [word_to_index] and the last word of an id is
    the one [index_to_word] keeps. *)
Theorem markers_decode (word_index : list (string * Z)) :
  wf word_index →
  (∀ k, k ∈ special_words → get word_index k = None) →
  get (index_to_word word_index) 0%Z = Some "<PAD>"
  ∧ get (index_to_word word_index) 1%Z = Some "<START>"
  ∧ get (index_to_word word_index) 2%Z = Some "<UNK>".
Proof.
  intros Hwf Hsp. unfold index_to_word, inverted.
  rewrite word_to_index_app by done.
  split_and!; by rewrite get_of_items, fmap_app, reverse_app, get_app.
Qed.

Lemma markers_decode_witness :
  get (index_to_word [("a", (-3)%Z); ("b", (-1)%Z)]) 0%Z = Some "<PAD>"
  ∧ get (index_to_word [("a", (-3)%Z); ("b", (-1)%Z)]) 1%Z = Some "<START>"
  ∧ get (index_to_word [("a", (-3)%Z); ("b", (-1)%Z)]) 2%Z = Some "<UNK>".
Proof.
  apply (markers_decode [("a", (-3)%Z); ("b", (-1)%Z)]).
  - wf_done.
  - no_marker_done.
Defined.

(** X3. For every library index, [index_to_word] maps an id only to a word
    that has this id in [word_to_index], it has an entry for every id of
    [word_to_index], and it has no more entries than [word_to_index]. *)
Theorem index_to_word_ids (word_index : list (string * Z)) :
  (∀ i k, get (index_to_word word_index) i = Some k →
          get (word_to_index word_index) k = Some i)
  ∧ (∀ k i, get (word_to_index word_index) k = Some i →
            is_Some (get (index_to_word word_index) i))
  ∧ length (index_to_word word_index) ≤ length (word_to_index word_index).
Proof.
  unfold index_to_word. split_and!.
  - intros i k. apply get_inverted, wf_word_to_index.
  - intros k i. apply inverted_is_Some.
  - apply length_inverted_le.
Qed.

(** X4. When the library gives distinct ids to distinct words, shifts no
    word onto 0, 1 or 2 and has no marker among its words, [index_to_word]
    lists the shifted ids with their words in the library's order and then
    0, 1, 2 with the markers: it has three entries more than the library's
    index. *)
Theorem index_to_word_layout (word_index : list (string * Z)) :
  wf word_index →
  distinct_ids word_index →
  (∀ k v, get word_index k = Some v → (v + 3)%Z ∉ [0; 1; 2]%Z) →
  (∀ k, k ∈ special_words → get word_index k = None) →
  index_to_word word_index =
    ((λ kv, ((kv.2 + 3)%Z, kv.1)) <$> word_index)
    ++ [(0%Z, "<PAD>"); (1%Z, "<START>"); (2%Z, "<UNK>")]
  ∧ length (index_to_word word_index) = length word_index + 3.
Proof.
  intros Hwf Hinj Hfree Hsp.
  assert (index_to_word word_index =
            ((λ kv, ((kv.2 + 3)%Z, kv.1)) <$> word_index)
            ++ [(0%Z, "<PAD>"); (1%Z, "<START>"); (2%Z, "<UNK>")]) as ->.
  { unfold index_to_word.
    rewrite inverted_distinct
      by (apply wf_word_to_index || by apply word_to_index_distinct).
    rewrite word_to_index_app, fmap_app by done.
    by rewrite <- list_fmap_compose. }
  split; [done|]. by rewrite length_app, length_fmap.
Qed.

Lemma index_to_word_layout_witness :
  index_to_word [("the", 1%Z); ("and", 2%Z)] =
    [(4%Z, "the"); (5%Z, "and"); (0%Z, "<PAD>"); (1%Z, "<START>"); (2%Z, "<UNK>")].
Proof.
  refine (proj1 (index_to_word_layout [("the", 1%Z); ("and", 2%Z)] _ _ _ _)).
  - wf_done.
  - intros k1 k2 v. simpl. repeat case_decide; congruence.
  - intros k v. simpl. repeat case_decide; intros [= <-];
      rewrite !elem_of_cons, elem_of_nil; lia.
  - no_marker_done.
Defined.

(** X5. Showing a review gives back its words: when the library gives
    distinct ids to distinct words and shifts none onto 0, 1 or 2, and each
    token of the row at [I_SHOW] is the id that [word_to_index] gives to the
    word at its place in [ws], the cell's expression evaluates to the words
    of [ws] joined by single spaces. *)
Theorem show_review_words (word_index : list (string * Z)) (x : list (list Z))
    (I_SHOW : Z) (row : list Z) (ws : list string) :
  wf word_index →
  distinct_ids word_index →
  (∀ k v, get word_index k = Some v → (v + 3)%Z ∉ [0; 1; 2]%Z) →
  getitem_seq x I_SHOW = Ok row →
  Forall2 (λ t word, get (word_to_index word_index) word = Some t) row ws →
  show_review (index_to_word word_index) x I_SHOW = Ok (String.concat " " ws).
Proof.
  intros Hwf Hinj Hfree Hrow Hws. unfold show_review. rewrite Hrow. simpl.
  rewrite (list_comp_getitem _ row ws); [done|].
  eapply Forall2_impl; [exact Hws|]. intros t word Ht. simpl in Ht.
  unfold index_to_word. apply inverted_round_trip;
    [apply wf_word_to_index | by apply word_to_index_distinct | done].
Qed.

Lemma show_review_words_witness :
  show_review (index_to_word [("the", 1%Z); ("and", 2%Z)])
    [[1; 5; 4; 2]%Z] 0 = Ok "<START> and the <UNK>".
Proof.
  apply (show_review_words [("the", 1%Z); ("and", 2%Z)] [[1; 5; 4; 2]%Z] 0
           [1; 5; 4; 2]%Z ["<START>"; "and"; "the"; "<UNK>"]).
  - wf_done.
  - intros k1 k2 v. simpl. repeat case_decide; congruence.
  - intros k v. simpl. repeat case_decide; intros [= <-];
      rewrite !elem_of_cons, elem_of_nil; lia.
  - reflexivity.
  - repeat constructor.
Defined.

(** X6. What showing a review can end in, for any dict and any data: a
    string, when [I_SHOW] is an index of a row and every token of the row
    is a key of the dict; [IndexError], exactly when [I_SHOW] is outside
    [-len(x), len(x))]; [KeyError], when the row exists and one of its
    tokens is no key.  No other exception comes out, and a bad index is
    reported before a missing key. *)
Theorem show_review_outcome (i2w : list (Z * string)) (x : list (list Z))
    (I_SHOW : Z) :
  match show_review i2w x I_SHOW with
  | Ok s =>
      valid_index x I_SHOW
      ∧ ∃ row, getitem_seq x I_SHOW = Ok row
               ∧ Forall (λ t, is_Some (get i2w t)) row
  | Raise IndexError => ¬ valid_index x I_SHOW
  | Raise KeyError =>
      valid_index x I_SHOW
      ∧ ∃ row t, getitem_seq x I_SHOW = Ok row ∧ t ∈ row ∧ get i2w t = None
  | Raise _ => False
  end.
Proof.
  unfold show_review.
  pose proof (getitem_seq_outcome x I_SHOW) as Hrow.
  destruct (getitem_seq x I_SHOW) as [row|e]; simpl.
  - destruct Hrow as [Hv Hin].
    pose proof (list_comp_outcome (getitem i2w) row) as Hws.
    destruct (list_comp (getitem i2w) row) as [ws|e]; simpl.
    + split; [done|]. exists row. split; [done|].
      apply Forall_forall. intros t Ht.
      apply list_elem_of_lookup_1 in Ht as [n Hn].
      destruct (Forall2_lookup_l _ _ _ _ _ Hws Hn) as (word & _ & Hword).
      unfold getitem in Hword. destruct (get i2w t); [by eexists|done].
    + destruct Hws as (t & Ht & Hraise). unfold getitem in Hraise.
      destruct (get i2w t) eqn:Hget; [done|]. injection Hraise as <-.
      split; [done|]. by exists row, t.
  - by destruct Hrow as [-> Hv].
Qed.

(** X7. A row can be named from the end: for [0 <= I_SHOW < len(x)],
    showing the review at [I_SHOW - len(x)] gives what showing the review
    at [I_SHOW] gives. *)
Theorem show_review_from_end (i2w : list (Z * string)) (x : list (list Z))
    (I_SHOW : Z) :
  (0 ≤ I_SHOW < Z.of_nat (length x))%Z →
  show_review i2w x (I_SHOW - Z.of_nat (length x)) = show_review i2w x I_SHOW.
Proof.
  intros HI. unfold show_review. by rewrite getitem_seq_negative.
Qed.

Lemma show_review_from_end_witness :
  show_review (index_to_word [("the", 1%Z)]) [[1; 4]%Z; [1; 2]%Z] (1 - 2)
  = show_review (index_to_word [("the", 1%Z)]) [[1; 4]%Z; [1; 2]%Z] 1.
Proof.
  apply (show_review_from_end _ [[1; 4]%Z; [1; 2]%Z] 1). simpl. lia.
Defined.

End word_index_extras.

(** ** The cells in the kernel *)

Section cell_extras.
Import PyDict PyDictFacts.

Ltac get_done :=
  repeat first [rewrite get_setitem_eq | rewrite get_setitem_ne by done];
  first [reflexivity | eassumption].

Ltac heap_done :=
  first [ rewrite lookup_new; reflexivity
        | apply lookup_app_l_Some; heap_done ].

(** X8. The cells on the reviews need cell 3 to have run: while [x_train]
    is not bound, cell 4, cell 6 and cell 7 each end in [NameError], and
    cell 7 binds no [X_train]. *)
Theorem cells_need_x_train (σ : kernel) :
  get (globals σ) "x_train" = None →
  (cell_peek σ).1 = Raise NameError
  ∧ (cell_show_review σ).1 = Raise NameError
  ∧ (cell_pad σ).1 = Raise NameError
  ∧ get (globals (cell_pad σ).2) "X_train" = get (globals σ) "X_train".
Proof.
  destruct σ as [g h out]. simpl. intros Hg. split_and!.
  - unfold cell_peek. by erewrite bind_raise by by apply read_seqs_unbound.
  - unfold cell_show_review.
    erewrite bind_ok by reflexivity. cbv beta. cbn [globals heap stdout].
    by erewrite bind_raise
      by (apply read_seqs_unbound; by rewrite get_setitem_ne).
  - unfold cell_pad.
    erewrite bind_ok by reflexivity. cbv beta. cbn [globals heap stdout].
    by erewrite bind_raise
      by (unfold name_lookup; simpl; rewrite get_setitem_ne, Hg by done; reflexivity).
  - unfold cell_pad.
    erewrite bind_ok by reflexivity. cbv beta. cbn [globals heap stdout].
    erewrite bind_raise
      by (unfold name_lookup; simpl; rewrite get_setitem_ne, Hg by done; reflexivity).
    simpl. by rewrite get_setitem_ne.
Qed.

Lemma cells_need_x_train_witness :
  (cell_peek (Kernel [("NUM_WORDS", 0)] [OInt 20000] [])).1 = Raise NameError
  ∧ (cell_show_review (Kernel [("NUM_WORDS", 0)] [OInt 20000] [])).1 = Raise NameError
  ∧ (cell_pad (Kernel [("NUM_WORDS", 0)] [OInt 20000] [])).1 = Raise NameError
  ∧ get (globals (cell_pad (Kernel [("NUM_WORDS", 0)] [OInt 20000] [])).2) "X_train"
    = get (globals (Kernel [("NUM_WORDS", 0)] [OInt 20000] [])) "X_train".
Proof.
  exact (cells_need_x_train (Kernel [("NUM_WORDS", 0)] [OInt 20000] []) eq_refl).
Defined.



(** X10. The four cells on the data run through: when the loader and the
    word index are given, no marker is a word of the library, every token
    of the train reviews is one the loader can give, and there are at least
    five train reviews, the run of cells 3, 5, 6 and 7 ends without an
    exception, [X_train] and [X_test] are bound to the padded reviews, the
    five lines of cells 3 and 7 are printed, and no object that was there
    is changed. *)
Theorem data_cells_run (imdb : library) (σ : kernel)
    (xtr xte : list (list Z)) (ytr yte : list Z) (raw : list (string * Z)) :
  load_data imdb NUM_WORDS = Ok ((xtr, ytr), (xte, yte)) →
  get_word_index imdb = Ok raw →
  (∀ k, k ∈ special_words → get (of_items raw) k = None) →
  loaded_tokens (of_items raw) xtr →
  5 ≤ length xtr →
  let σ' := (data_cells imdb σ).2 in
  (data_cells imdb σ).1 = Ok ()
  ∧ (read "X_train" σ').1 = Ok (OArray 80 (pre_padded 80 <$> xtr))
  ∧ (read "X_test" σ').1 = Ok (OArray 80 (pre_padded 80 <$> xte))
  ∧ stdout σ' =
      stdout σ ++ ["Loading data...";
                   pretty (length xtr) +:+ " train sequences";
                   pretty (length xte) +:+ " test sequences";
                   "Size of X_train (" +:+ pretty (length xtr) +:+ ", 80)";
                   "Size of X_test (" +:+ pretty (length xte) +:+ ", 80)"]
  ∧ heap σ `prefix_of` heap σ'.
Proof.
  destruct σ as [g h out]. intros Hload Hraw Hsp Htok Hlen.
  destruct (show_review_defined (of_items raw) xtr 4) as [s Hs];
    [apply wf_of_items | done | done | unfold valid_index; lia |].
  unfold data_cells.
  erewrite bind_ok by exact (cell_load_data_run _ _ _ _ _ _ _ _ Hload).
  erewrite bind_ok by exact (cell_word_index_run _ _ _ _ _ Hraw).
  erewrite bind_ok; cycle 1.
  { rewrite (cell_show_review_state _ _ _ (length h + 1)
               (length (h ++ [OInt 20000; OSeqs xtr; OLabels ytr; OSeqs xte;
                              OLabels yte]) + 3)
               xtr (index_to_word (of_items raw)));
      [by rewrite Hs | get_done | heap_done | get_done | heap_done]. }
  rewrite (cell_pad_run _ _ _ (length h + 1) (length h + 3) xtr xte);
    [|get_done|heap_done|get_done|heap_done].
  cbn [fst snd stdout heap]. split_and!.
  - done.
  - erewrite read_run; [done|get_done|heap_done].
  - erewrite read_run; [done|get_done|heap_done].
  - by rewrite <- app_assoc.
  - do 4 (etrans; [|apply prefix_app_r; reflexivity]). done.
Qed.

Lemma data_cells_run_witness :
  (data_cells five_imdb (Kernel [] [] [])).1 = Ok ().
Proof.
  refine (proj1 (data_cells_run five_imdb (Kernel [] [] [])
                   [[1; 4]%Z; [1; 5; 4]%Z; [1; 2]%Z; [1; 6; 6; 4]%Z; [1; 4; 5; 6]%Z]
                   [[1; 6; 4]%Z] [1; 0; 0; 1; 1]%Z [1%Z]
                   [("the", 1%Z); ("and", 2%Z); ("a", 3%Z)]
                   eq_refl eq_refl _ _ _)).
  - intros k Hk. unfold special_words in Hk. rewrite !elem_of_cons in Hk.
    destruct Hk as [->|[->|[->|Hk]]]; [done..|by apply elem_of_nil in Hk].
  - intros row t Hrow Ht.
    assert (t = 1 ∨ t = 2 ∨ t = 4 ∨ t = 5 ∨ t = 6)%Z as Hcases.
    { rewrite !elem_of_cons, elem_of_nil in Hrow.
      destruct Hrow as [->|[->|[->|[->|[->|[]]]]]];
        rewrite !elem_of_cons, elem_of_nil in Ht; lia. }
    destruct Hcases as [->|[->|[->|[->| ->]]]].
    + left. rewrite !elem_of_cons. tauto.
    + left. rewrite !elem_of_cons. tauto.
    + right. by exists "the", 1%Z.
    + right. by exists "and", 2%Z.
    + right. by exists "a", 3%Z.
  - simpl. lia.
Defined.


(** X12. Cell 7 on reviews: when [x_train] and [x_test] are bound to
    arrays of token lists, the cell ends well, [X_train] and [X_test] are
    bound to arrays of 80 columns whose rows are the padded reviews, one
    for one, [x_train] is still bound to its reviews, and the cell prints
    the two shapes [(len(x_train), 80)] and [(len(x_test), 80)]. *)
Theorem cell_pad_binds (σ : kernel) (l1 l2 : nat) (xtr xte : list (list Z)) :
  get (globals σ) "x_train" = Some l1 → heap σ !! l1 = Some (OSeqs xtr) →
  get (globals σ) "x_test" = Some l2 → heap σ !! l2 = Some (OSeqs xte) →
  let σ' := (cell_pad σ).2 in
  (cell_pad σ).1 = Ok ()
  ∧ (read "X_train" σ').1 = Ok (OArray 80 (pre_padded 80 <$> xtr))
  ∧ (read "X_test" σ').1 = Ok (OArray 80 (pre_padded 80 <$> xte))
  ∧ (read "x_train" σ').1 = Ok (OSeqs xtr)
  ∧ stdout σ' =
      stdout σ ++ ["Size of X_train (" +:+ pretty (length xtr) +:+ ", 80)";
                   "Size of X_test (" +:+ pretty (length xte) +:+ ", 80)"].
Proof.
  destruct σ as [g h out]. simpl. intros Hg1 Hl1 Hg2 Hl2.
  rewrite (cell_pad_run _ _ _ _ _ _ _ Hg1 Hl1 Hg2 Hl2). simpl. split_and!.
  - done.
  - erewrite read_run; [done|get_done|]. by rewrite lookup_new.
  - erewrite read_run; [done|get_done|]. by rewrite lookup_new.
  - erewrite read_run; [done|get_done|]. by apply lookup_app_l_Some.
  - done.
Qed.

Lemma cell_pad_binds_witness :
  (cell_pad (Kernel [("x_train", 0); ("x_test", 1)]
               [OSeqs [[1; 4]%Z]; OSeqs []] [])).1 = Ok ().
Proof.
  exact (proj1 (cell_pad_binds
                  (Kernel [("x_train", 0); ("x_test", 1)]
                     [OSeqs [[1; 4]%Z]; OSeqs []] [])
                  0 1 [[1; 4]%Z] [] eq_refl eq_refl eq_refl eq_refl)).
Defined.

(** X13. How many reviews the cells need: cell 4 shows the first three
    reviews, or all of them when there are fewer, and never raises on
    reviews; cell 6, which shows the review at index 4, ends in
    [IndexError] when there are fewer than five. *)
Theorem cells_need_rows (σ : kernel) (l : nat) (x : list (list Z)) :
  get (globals σ) "x_train" = Some l → heap σ !! l = Some (OSeqs x) →
  (cell_peek σ).1 = Ok (take 3 x)
  ∧ (length x < 5 → (cell_show_review σ).1 = Raise IndexError).
Proof.
  destruct σ as [g h out]. simpl. intros Hg Hl. split.
  - by rewrite (cell_peek_run _ _ _ _ _ Hg Hl).
  - intros Hlen. unfold cell_show_review.
    erewrite bind_ok by reflexivity. cbv beta. cbn [globals heap stdout].
    erewrite bind_ok; cycle 1.
    { eapply read_seqs_run; [by rewrite get_setitem_ne|by apply lookup_snoc_old]. }
    erewrite bind_ok; cycle 1.
    { eapply read_int_run; [apply get_setitem_eq|apply lookup_snoc_here]. }
    cbv beta.
    pose proof (getitem_seq_outcome x 4) as Hrow.
    destruct (getitem_seq x 4) as [row|e] eqn:Hget.
    + destruct Hrow as [Hv _]. unfold valid_index in Hv. lia.
    + destruct Hrow as [-> _].
      by erewrite bind_raise by reflexivity.
Qed.

Lemma cells_need_rows_witness :
  (cell_peek (Kernel [("x_train", 0)] [OSeqs [[1; 4]%Z; [1; 2]%Z]] [])).1
  = Ok [[1; 4]%Z; [1; 2]%Z]
  ∧ (length [[1; 4]%Z; [1; 2]%Z] < 5 →
     (cell_show_review (Kernel [("x_train", 0)] [OSeqs [[1; 4]%Z; [1; 2]%Z]] [])).1
     = Raise IndexError).
Proof.
  exact (cells_need_rows (Kernel [("x_train", 0)] [OSeqs [[1; 4]%Z; [1; 2]%Z]] [])
           0 [[1; 4]%Z; [1; 2]%Z] eq_refl eq_refl).
Defined.

(** X14. Cell 9 after cell 7: the value of [X_train[3, :]] is the fourth
    review, padded to 80 tokens, and it is [IndexError] when there are
    fewer than four reviews. *)
Theorem cell_show_row_after_pad (σ : kernel) (l1 l2 : nat)
    (xtr xte : list (list Z)) :
  get (globals σ) "x_train" = Some l1 → heap σ !! l1 = Some (OSeqs xtr) →
  get (globals σ) "x_test" = Some l2 → heap σ !! l2 = Some (OSeqs xte) →
  ((cell_pad;; cell_show_row) σ).1 =
  match xtr !! 3 with
  | Some s => Ok (pre_padded 80 s)
  | None => Raise IndexError
  end.
Proof.
  destruct σ as [g h out]. simpl. intros Hg1 Hl1 Hg2 Hl2.
  erewrite bind_ok by exact (cell_pad_run _ _ _ _ _ _ _ Hg1 Hl1 Hg2 Hl2).
  rewrite (cell_show_row_run _ _ _ (length h + 1) 80 (pre_padded 80 <$> xtr));
    [|get_done|by rewrite lookup_new].
  cbn [fst]. rewrite getitem_seq_fmap.
  change 3%Z with (Z.of_nat 3).
  rewrite (getitem_seq_lookup xtr 3). by destruct (xtr !! 3).
Qed.

Lemma cell_show_row_after_pad_witness :
  ((cell_pad;; cell_show_row)
     (Kernel [("x_train", 0); ("x_test", 0)] [OSeqs [[1; 4]%Z]] [])).1
  = Raise IndexError.
Proof.
  exact (cell_show_row_after_pad
           (Kernel [("x_train", 0); ("x_test", 0)] [OSeqs [[1; 4]%Z]] [])
           0 0 [[1; 4]%Z] [[1; 4]%Z] eq_refl eq_refl eq_refl eq_refl).
Defined.

(** X15. The cells that only look at the data change nothing, whatever
    the kernel holds: cell 4 and cell 9 keep every object and rebind no
    name, and cell 6 keeps every object and rebinds no name but [I_SHOW];
    this also holds when they end in an exception. *)
Theorem inspecting_cells_frame :
  frames [] cell_peek
  ∧ frames ["I_SHOW"] cell_show_review
  ∧ frames [] cell_show_row.
Proof.
  split_and!.
  - apply frames_bind; [apply frames_read_seqs|]. intros x. apply frames_ret.
  - unfold cell_show_review.
    apply frames_bind; [apply frames_assign_int, list_elem_of_here|]. intros _.
    apply frames_bind; [apply frames_read_seqs|]. intros x.
    apply frames_bind; [apply frames_read_int|]. intros i.
    apply frames_bind; [apply frames_lift|]. intros row.
    apply frames_bind; [|intros ws; apply frames_ret].
    destruct row; [apply frames_ret|].
    apply frames_bind; [apply frames_read_dict_is|]. intros i2w.
    apply frames_lift.
  - unfold cell_show_row.
    apply frames_bind; [apply frames_read|]. intros o.
    apply frames_bind; [apply frames_lift|]. intros sh.
    apply frames_bind; [apply frames_print|]. intros _.
    apply frames_bind; [apply frames_read|].
    intros []; first [apply frames_lift | apply frames_raise].
Qed.

End cell_extras.
